(** * lava.py: the Lavalink client ([lava/client.py])

    A shallow embedding of class [Lavalink]: the session state and its
    accessors, [connect], the frame loop [_start_listening], the listener
    registry ([listen], [dispatch]) and the REST accessors ([get],
    [get_players]).

    Python objects are modelled as follows.
    - [str] is [string]; [int] is [Z]; [str(n)] and the f-string rendering
      of an [int] are stdpp's decimal printer [pretty].
    - A decoded JSON document ([json.loads], [res.json()]) is a [json]
      value; a [dict] keeps its keys in insertion order, so an object is an
      association list.
    - The header [dict] and the listener registry are finite maps.
    - A raised exception is the left injection of [result].  Methods run in
      the monad [M] over a [world]: the client object [self] and the trace
      of what the method did outside it (tasks created on the event loop,
      HTTP requests sent, contexts entered and closed), in order.
    - A coroutine is run from start to end: what other tasks do while it is
      suspended at an [await] is not part of its model.  [connect],
      [dispatch] and the decorator of [listen] never await.
    - The classes of [lava.events], [lava.models] and [lava.errors], the
      JSON decoder and the node are parameters of the development. *)

From Stdlib Require Import ZArith.
From stdpp Require Import gmap strings list fin_maps pretty.

#[local] Set Warnings "-register-all".

(** ** Decoded JSON values *)

Inductive json : Type :=
| JNull
| JBool (b : bool)
| JInt (n : Z)
| JFloat (repr : string)
| JStr (s : string)
| JArr (items : list json)
| JObj (fields : list (string * json)).

(** ** Exceptions *)

Inductive exn : Type :=
| RuntimeError (msg : string)
| KeyError (key : string)
| TypeError (msg : string)
| JSONDecodeError
| ClientResponseError (status : Z)
| ClientConnectionError
| ContentTypeError
| LavalinkError (payload : json)
| ValueError (msg : string).

Definition result (A : Type) : Type := exn + A.

(** ** Python primitives used by the client *)

(** [str(n)] for an [int]. *)
Definition str (n : Z) : string := pretty n.

(** [port: int | str]. *)
Inductive port_t : Type :=
| PortInt (n : Z)
| PortStr (s : string).

(** How an f-string renders a port: [format(port, "")]. *)
Definition fmt_port (p : port_t) : string :=
  match p with
  | PortInt n => str n
  | PortStr s => s
  end.

(** Truth value of a [str | None]: [None] and the empty string are false. *)
Definition truthy (o : option string) : bool :=
  match o with
  | None => false
  | Some s => negb (String.eqb s "")
  end.

(** [v == s] for a decoded value [v] and a string literal [s]: values of
    other types never compare equal to a [str]. *)
Definition eq_str (v : json) (s : string) : bool :=
  match v with
  | JStr t => String.eqb t s
  | _ => false
  end.

(** Lookup in a [dict] kept as an association list. *)
Fixpoint assoc (key : string) (fields : list (string * json)) : option json :=
  match fields with
  | [] => None
  | (k, v) :: rest => if String.eqb k key then Some v else assoc key rest
  end.

(** [data[key]] with a string key: [KeyError] on a [dict] without the key,
    [TypeError] on every value that is not a [dict]. *)
Definition getitem (data : json) (key : string) : result json :=
  match data with
  | JObj fields =>
      match assoc key fields with
      | Some v => inr v
      | None => inl (KeyError key)
      end
  | JArr _ => inl (TypeError "list indices must be integers or slices, not str")
  | JStr _ => inl (TypeError "string indices must be integers, not 'str'")
  | JNull => inl (TypeError "'NoneType' object is not subscriptable")
  | JBool _ => inl (TypeError "'bool' object is not subscriptable")
  | JInt _ => inl (TypeError "'int' object is not subscriptable")
  | JFloat _ => inl (TypeError "'float' object is not subscriptable")
  end.

(** The characters of a string, each as a one-character string.  A
    [string] is a sequence of bytes, so this is Python's iteration for ASCII
    text only: Python goes by code point. *)
Fixpoint chars (s : string) : list string :=
  match s with
  | EmptyString => []
  | String c rest => String c EmptyString :: chars rest
  end.

(** [for p in v]: a list yields its elements, a [dict] its keys in insertion
    order, a [str] its characters; the other values are not iterable. *)
Definition iter (v : json) : result (list json) :=
  match v with
  | JArr items => inr items
  | JObj fields => inr (map (fun kv => JStr (fst kv)) fields)
  | JStr s => inr (map JStr (chars s))
  | JNull => inl (TypeError "'NoneType' object is not iterable")
  | JBool _ => inl (TypeError "'bool' object is not iterable")
  | JInt _ => inl (TypeError "'int' object is not iterable")
  | JFloat _ => inl (TypeError "'float' object is not iterable")
  end.

(** ** Event classes ([lava.events]) *)

Inductive EventType : Type :=
| ReadyEvent
| PlayerUpdateEvent
| StatsEvent
| TrackStartEvent
| TrackEndEvent
| TrackExceptionEvent
| TrackStuckEvent
| WebSocketClosedEvent.

#[global] Instance EventType_eq_dec : EqDecision EventType.
Proof. solve_decision. Defined.

Definition EventType_to_nat (t : EventType) : nat :=
  match t with
  | ReadyEvent => 0
  | PlayerUpdateEvent => 1
  | StatsEvent => 2
  | TrackStartEvent => 3
  | TrackEndEvent => 4
  | TrackExceptionEvent => 5
  | TrackStuckEvent => 6
  | WebSocketClosedEvent => 7
  end.

Definition EventType_of_nat (n : nat) : option EventType :=
  match n with
  | 0 => Some ReadyEvent
  | 1 => Some PlayerUpdateEvent
  | 2 => Some StatsEvent
  | 3 => Some TrackStartEvent
  | 4 => Some TrackEndEvent
  | 5 => Some TrackExceptionEvent
  | 6 => Some TrackStuckEvent
  | 7 => Some WebSocketClosedEvent
  | _ => None
  end.

#[global] Instance EventType_countable : Countable EventType.
Proof.
  apply (inj_countable EventType_to_nat EventType_of_nat).
  intros []; reflexivity.
Defined.

(** The value of [op] and, for an [event] frame, of [type] that the chain
    of comparisons in [_start_listening] tests before it builds an event of
    each class. *)
Definition wire_op (cls : EventType) : string :=
  match cls with
  | ReadyEvent => "ready"
  | PlayerUpdateEvent => "playerUpdate"
  | StatsEvent => "stats"
  | TrackStartEvent | TrackEndEvent | TrackExceptionEvent
  | TrackStuckEvent | WebSocketClosedEvent => "event"
  end.

Definition wire_type (cls : EventType) : option string :=
  match cls with
  | ReadyEvent | PlayerUpdateEvent | StatsEvent => None
  | TrackStartEvent => Some "TrackStartEvent"
  | TrackEndEvent => Some "TrackEndEvent"
  | TrackExceptionEvent => Some "TrackExceptionEvent"
  | TrackStuckEvent => Some "TrackStuckEvent"
  | WebSocketClosedEvent => Some "WebSocketClosedEvent"
  end.

(** A listener: a reference to a coroutine function, known by its identity. *)
Record EventsCallbackT : Type := Callback { callback_id : N }.

#[global] Instance EventsCallbackT_eq_dec : EqDecision EventsCallbackT.
Proof. solve_decision. Defined.

(** ** Transport objects ([aiohttp]) *)

(** [aiohttp.ClientSession(headers=...)]: the default headers sent with
    every request of the session. *)
Record ClientSession : Type := { headers : gmap string string }.

(** [session.ws_connect(url)]: the context manager of a WebSocket request
    that has not been entered yet. *)
Record WSRequestContextManager : Type :=
  { ws_session : ClientSession; ws_url : string }.

(** A text frame; [msg.data] is its payload. *)
Record WSMessage : Type := { data : string }.

(** A response: its status and the outcome of [await res.json()]. *)
Record ClientResponse : Type := { status : Z; res_json : result json }.

(** [res.ok]: aiohttp's [400 > self.status]. *)
Definition ok (res : ClientResponse) : bool := (status res <? 400)%Z.

(** ** The client object *)

Record Lavalink : Type := {
  _is_ssl : option bool;
  _host : option string;
  _port : option port_t;
  _session : option ClientSession;
  _websocket : option WSRequestContextManager;
  event_listeners : gmap EventType (list EventsCallbackT)
}.

(** [Lavalink.__init__]. *)
Definition __init__ : Lavalink :=
  {| _is_ssl := None; _host := None; _port := None;
     _session := None; _websocket := None; event_listeners := ∅ |}.

Definition not_connected : exn :=
  RuntimeError "Lavalink.connect() was not called.".

(** ** Stand-ins for the collaborators

    Simple event, model and error classes, a decoder that knows a fixed set
    of frames and a node with a canned answer, to run the client on concrete
    inputs. *)
Module Stub.

(** An event that keeps its class and the payload it was built from. *)
Record Event : Type := { cls : EventType; payload : json }.

Definition type_of (event : Event) : EventType := cls event.

Definition Event_from_payload (c : EventType) (d : json) : result Event :=
  inr {| cls := c; payload := d |}.

(** A player is built from a [dict]; anything else cannot be indexed by a
    field name. *)
Record Player : Type := { player_fields : list (string * json) }.

Definition Player_from_payload (d : json) : result Player :=
  match d with
  | JObj fields => inr {| player_fields := fields |}
  | _ => inl (TypeError "indices must be integers")
  end.

(** A model class that accepts any payload and keeps it. *)
Definition Raw_from_payload (d : json) : result json := inr d.

Definition LavalinkError_from_payload (d : json) : result exn :=
  inr (LavalinkError d).

(** A decoder that knows the frames of [table] and rejects every other
    text. *)
Definition json_loads (table : list (string * json)) (text : string) : result json :=
  match assoc text table with
  | Some v => inr v
  | None => inl JSONDecodeError
  end.

(** Four frames as [json_loads] is to read them: an [event] frame of an
    unknown type, a frame without [op], an [event] frame without [type], and
    a frame that is an array. *)
Definition frames_table : list (string * json) :=
  [ ("unknown-type", JObj [("op", JStr "event"); ("type", JStr "TrackPausedEvent")]);
    ("no-op", JObj [("guildId", JStr "1")]);
    ("no-type", JObj [("op", JStr "event"); ("guildId", JStr "1")]);
    ("array", JArr [JStr "ready"]) ].

(** Frames of the protocol: a [ready] frame that also carries a [type], a
    [stats] frame and a [TrackStartEvent] frame. *)
Definition known_frames : list (string * json) :=
  [ ("ready", JObj [("op", JStr "ready"); ("type", JStr "TrackStartEvent")]);
    ("stats", JObj [("op", JStr "stats"); ("players", JInt 0)]);
    ("track-start", JObj [("op", JStr "event"); ("type", JStr "TrackStartEvent")]) ].

(** A node that answers every request with the same status and body. *)
Definition node (status : Z) (body : json) : ClientSession -> string -> result ClientResponse :=
  fun _ _ => inr {| status := status; res_json := inr body |}.

(** A node whose answer has a body that is not JSON. *)
Definition node_not_json (status : Z) : ClientSession -> string -> result ClientResponse :=
  fun _ _ => inr {| status := status; res_json := inl ContentTypeError |}.

(** A node that cannot be reached. *)
Definition node_down : ClientSession -> string -> result ClientResponse :=
  fun _ _ => inl ClientConnectionError.

End Stub.

Section Client.

(** The collaborators of the client that live outside [client.py]:
    the event and model classes, the error factory, the JSON decoder and
    the node that answers HTTP requests. *)
Context {Event Player : Type}.
Variable type_of : Event -> EventType.
Variable Event_from_payload : EventType -> json -> result Event.
Variable Player_from_payload : json -> result Player.
Variable LavalinkError_from_payload : json -> result exn.
Variable json_loads : string -> result json.
Variable node : ClientSession -> string -> result ClientResponse.

(** A coroutine object handed to [asyncio.create_task]. *)
Inductive coroutine : Type :=
| StartListening
| Listener (listener : EventsCallbackT) (event : Event).

(** What a method does to the world outside the client object. *)
Inductive effect : Type :=
| CreateTask (c : coroutine)
| HttpGet (s : ClientSession) (url : string)
| WsEnter (ws : WSRequestContextManager)
| SessionClose (s : ClientSession)
| WsClose (ws : WSRequestContextManager).

Record world : Type := { self : Lavalink; trace : list effect }.

(** *** The monad of methods *)

Definition M (A : Type) : Type := world -> result A * world.

Definition ret {A} (a : A) : M A := fun w => (inr a, w).
Definition raise {A} (e : exn) : M A := fun w => (inl e, w).
Definition bind {A B} (m : M A) (k : A -> M B) : M B :=
  fun w =>
    match m w with
    | (inr a, w') => k a w'
    | (inl e, w') => (inl e, w')
    end.
Definition lift {A} (r : result A) : M A := fun w => (r, w).

Notation "'let*' x ':=' c1 'in' c2" := (bind c1 (fun x => c2))
  (at level 10, x name, c1 at level 100, c2 at level 200).

Definition get_self : M Lavalink := fun w => (inr (self w), w).
Definition put_self (me : Lavalink) : M unit :=
  fun w => (inr tt, {| self := me; trace := trace w |}).
Definition emit (e : effect) : M unit :=
  fun w => (inr tt, {| self := self w; trace := trace w ++ [e] |}).

(** [asyncio.create_task(c)]: the coroutine is queued on the event loop
    and the caller goes on; nothing of [c] runs before the caller next
    awaits. *)
Definition create_task (c : coroutine) : M unit := emit (CreateTask c).

Fixpoint for_each {A} (body : A -> M unit) (l : list A) : M unit :=
  match l with
  | [] => ret tt
  | x :: rest => let* _ := body x in for_each body rest
  end.

Fixpoint map_result {A B} (f : A -> result B) (l : list A) : result (list B) :=
  match l with
  | [] => inr []
  | x :: rest =>
      match f x with
      | inl e => inl e
      | inr y =>
          match map_result f rest with
          | inl e => inl e
          | inr ys => inr (y :: ys)
          end
      end
  end.

(** *** Accessors *)

Definition is_ssl : M bool :=
  let* me := get_self in
  match _is_ssl me with
  | None => raise not_connected
  | Some b => ret b
  end.

Definition host : M string :=
  let* me := get_self in
  match _host me with
  | None => raise not_connected
  | Some h => ret h
  end.

Definition port : M port_t :=
  let* me := get_self in
  match _port me with
  | None => raise not_connected
  | Some p => ret p
  end.

(** [if not self._session]: a [ClientSession] object is always true, so
    the test fails exactly on [None]; likewise for the WebSocket. *)
Definition session : M ClientSession :=
  let* me := get_self in
  match _session me with
  | None => raise not_connected
  | Some s => ret s
  end.

Definition websocket : M WSRequestContextManager :=
  let* me := get_self in
  match _websocket me with
  | None => raise not_connected
  | Some ws => ret ws
  end.

(** *** Lifecycle *)

Definition close : M unit :=
  let* s := session in
  let* _ := emit (SessionClose s) in
  let* ws := websocket in
  emit (WsClose ws).

Definition connect_headers (password : string) (bot_id : Z)
    (resume_key : option string) : gmap string string :=
  let headers : gmap string string :=
    {[ "Authorization" := password;
       "User-Id" := str bot_id;
       "Client-Name" := "lava.py/0.0.0" ]} in
  match resume_key with
  | Some key => if truthy resume_key then <["Resume-Key" := key]> headers else headers
  | None => headers
  end.

Definition websocket_url (host : string) (port : port_t) (is_ssl : bool) : string :=
  (if is_ssl then "wss" else "ws") +:+ "://" +:+ host +:+ ":" +:+ fmt_port port
    +:+ "/v3/websocket".

Definition set__is_ssl (v : bool) : M unit :=
  let* me := get_self in
  put_self
    {| _is_ssl := Some v; _host := _host me; _port := _port me;
       _session := _session me; _websocket := _websocket me;
       event_listeners := event_listeners me |}.

Definition set__host (v : string) : M unit :=
  let* me := get_self in
  put_self
    {| _is_ssl := _is_ssl me; _host := Some v; _port := _port me;
       _session := _session me; _websocket := _websocket me;
       event_listeners := event_listeners me |}.

Definition set__port (v : port_t) : M unit :=
  let* me := get_self in
  put_self
    {| _is_ssl := _is_ssl me; _host := _host me; _port := Some v;
       _session := _session me; _websocket := _websocket me;
       event_listeners := event_listeners me |}.

Definition set__session (v : ClientSession) : M unit :=
  let* me := get_self in
  put_self
    {| _is_ssl := _is_ssl me; _host := _host me; _port := _port me;
       _session := Some v; _websocket := _websocket me;
       event_listeners := event_listeners me |}.

Definition set__websocket (v : WSRequestContextManager) : M unit :=
  let* me := get_self in
  put_self
    {| _is_ssl := _is_ssl me; _host := _host me; _port := _port me;
       _session := _session me; _websocket := Some v;
       event_listeners := event_listeners me |}.

(** [self._session.ws_connect(url)] reads the attribute just assigned and
    builds the context manager; the request itself is made when the context
    is entered, in [_start_listening]. *)
Definition ws_connect (url : string) : M WSRequestContextManager :=
  let* me := get_self in
  match _session me with
  | None => raise (TypeError "'NoneType' object has no attribute 'ws_connect'")
  | Some s => ret {| ws_session := s; ws_url := url |}
  end.

Definition connect (host : string) (port : port_t) (password : string)
    (bot_id : Z) (resume_key : option string) (is_ssl : bool) : M unit :=
  let* _ := set__is_ssl is_ssl in
  let* _ := set__host host in
  let* _ := set__port port in
  let headers := connect_headers password bot_id resume_key in
  let* _ := set__session {| headers := headers |} in
  let* ws := ws_connect (websocket_url host port is_ssl) in
  let* _ := set__websocket ws in
  create_task StartListening.

(** *** Listener registry *)

Definition dispatch (event : Event) : M unit :=
  let* me := get_self in
  match event_listeners me !! type_of event with
  | None | Some [] => ret tt
  | Some listeners =>
      for_each (fun listener => create_task (Listener listener event)) listeners
  end.

Definition set_listeners (reg : gmap EventType (list EventsCallbackT)) : M unit :=
  let* me := get_self in
  put_self
    {| _is_ssl := _is_ssl me; _host := _host me; _port := _port me;
       _session := _session me; _websocket := _websocket me;
       event_listeners := reg |}.

(** [listen(event_type)] returns the decorator; applying it to a callback
    is what registers. *)
Definition listen (event_type : EventType) : EventsCallbackT -> M unit :=
  fun callback =>
    let* me := get_self in
    match event_listeners me !! event_type with
    | Some registered =>
        set_listeners (<[event_type := registered ++ [callback]]> (event_listeners me))
    | None =>
        set_listeners (<[event_type := [callback]]> (event_listeners me))
    end.

(** *** The frame loop *)

(** [data[key] == literal]. *)
Definition field_is (data : json) (key literal : string) : M bool :=
  let* v := lift (getitem data key) in
  ret (eq_str v literal).

(** [self.dispatch(events.C.from_payload(data))]. *)
Definition dispatch_payload (cls : EventType) (data : json) : M unit :=
  let* event := lift (Event_from_payload cls data) in
  dispatch event.

(** The body of [async for msg in ws]. *)
Definition on_message (msg : WSMessage) : M unit :=
  let* data := lift (json_loads (data msg)) in
  let* is_ready := field_is data "op" "ready" in
  if is_ready then dispatch_payload ReadyEvent data else
  let* is_update := field_is data "op" "playerUpdate" in
  if is_update then dispatch_payload PlayerUpdateEvent data else
  let* is_stats := field_is data "op" "stats" in
  if is_stats then dispatch_payload StatsEvent data else
  let* is_event := field_is data "op" "event" in
  if is_event then
    let* is_start := field_is data "type" "TrackStartEvent" in
    if is_start then dispatch_payload TrackStartEvent data else
    let* is_end := field_is data "type" "TrackEndEvent" in
    if is_end then dispatch_payload TrackEndEvent data else
    let* is_exception := field_is data "type" "TrackExceptionEvent" in
    if is_exception then dispatch_payload TrackExceptionEvent data else
    let* is_stuck := field_is data "type" "TrackStuckEvent" in
    if is_stuck then dispatch_payload TrackStuckEvent data else
    let* is_closed := field_is data "type" "WebSocketClosedEvent" in
    if is_closed then dispatch_payload WebSocketClosedEvent data else
    ret tt
  else ret tt.

(** [_start_listening] on the frames the socket delivers before it closes. *)
Definition _start_listening (frames : list WSMessage) : M unit :=
  let* ws := websocket in
  let* _ := emit (WsEnter ws) in
  for_each on_message frames.

(** *** REST *)

Definition get_url (is_ssl : bool) (host : string) (port : port_t) (path : string) : string :=
  (if is_ssl then "http" else "https") +:+ "://" +:+ host +:+ ":" +:+ fmt_port port
    +:+ "/v3/" +:+ path +:+ "&trace=true".

(** [session.get(url)]: the request goes out and the node answers. *)
Definition http_get (s : ClientSession) (url : string) : M ClientResponse :=
  let* _ := emit (HttpGet s url) in
  lift (node s url).

(** [res.raise_for_status()]: aiohttp raises [ClientResponseError] when the
    response is not [ok] and returns [None] otherwise. *)
Definition raise_for_status (res : ClientResponse) : M unit :=
  if ok res then ret tt else raise (ClientResponseError (status res)).

Definition get (path : string) : M json :=
  let* s := session in
  let* ssl := is_ssl in
  let* h := host in
  let* p := port in
  let* res := http_get s (get_url ssl h p path) in
  let* data := lift (res_json res) in
  if negb (ok res) then
    (* raise errors.LavalinkError.from_payload(data) from res.raise_for_status():
       both expressions are evaluated, in this order, before anything is raised *)
    let* error := lift (LavalinkError_from_payload data) in
    let* cause := raise_for_status res in
    raise error
  else ret data.

Definition get_players (session_id : string) : M (list Player) :=
  let* body := get ("sessions/" +:+ session_id +:+ "/players") in
  let* items := lift (iter body) in
  lift (map_result Player_from_payload items).

(** The callbacks registered for an event class, in registration order
    ([self.event_listeners.get(cls)], with [None] read as no callbacks). *)
Definition registered (w : world) (cls : EventType) : list EventsCallbackT :=
  default [] (event_listeners (self w) !! cls).

(** Registering a sequence of (class, callback) pairs, one [listen] each. *)
Definition listen_all (regs : list (EventType * EventsCallbackT)) : M unit :=
  for_each (fun r => listen r.1 r.2) regs.

(** *** Relations between the world before and after a method *)

(** [keeps P m]: the world [m] ends in, whether it returns or raises, is
    related by [P] to the world it started in. *)
Definition keeps {A} (P : world -> world -> Prop) (m : M A) : Prop :=
  forall w, P w (m w).2.

(** The client object is untouched. *)
Definition same_self (w w' : world) : Prop := self w' = self w.

(** The trace only grows. *)
Definition trace_grows (w w' : world) : Prop :=
  exists rest, trace w' = trace w ++ rest.

(** *** Two clients to run the methods on *)

(** A client right after [__init__], with nothing done yet. *)
Definition fresh : world := {| self := __init__; trace := [] |}.

(** The same client after [connect("h", 80, "p", 1)]. *)
Definition connected : world :=
  (connect "h" (PortInt 80) "p" 1 None false fresh).2.

(** ** Properties *)

(** *** Frame lemmas

    Every method except [connect] and the decorator of [listen] is built
    from [get_self], [emit], [lift], [ret] and [raise], so it keeps every
    preorder that [emit] keeps. *)

Create HintDb keeps.

Section Frame.

Variable P : world -> world -> Prop.
Context `{!PreOrder P}.
Hypothesis P_emit :
  forall w e, P w {| self := self w; trace := trace w ++ [e] |}.

Lemma keeps_ret {A} (a : A) : keeps P (ret a).
Proof. intros w. reflexivity. Qed.

Lemma keeps_raise {A} (e : exn) : keeps P (raise (A := A) e).
Proof. intros w. reflexivity. Qed.

Lemma keeps_lift {A} (r : result A) : keeps P (lift r).
Proof. intros w. reflexivity. Qed.

Lemma keeps_get_self : keeps P get_self.
Proof. intros w. reflexivity. Qed.

Lemma keeps_emit (e : effect) : keeps P (emit e).
Proof. intros w. apply P_emit. Qed.

Lemma keeps_bind {A B} (m : M A) (k : A -> M B) :
  keeps P m -> (forall a, keeps P (k a)) -> keeps P (bind m k).
Proof.
  intros Hm Hk w. unfold bind.
  specialize (Hm w). destruct (m w) as [[e|a] w1]; simpl in *.
  - exact Hm.
  - etransitivity; [exact Hm | apply Hk].
Qed.

Lemma keeps_create_task (c : coroutine) : keeps P (create_task c).
Proof. apply keeps_emit. Qed.

Lemma keeps_for_each {A} (body : A -> M unit) (l : list A) :
  (forall x, keeps P (body x)) -> keeps P (for_each body l).
Proof.
  intros Hbody. induction l as [|x l IH]; simpl.
  - apply keeps_ret.
  - apply keeps_bind; [apply Hbody | intros _; exact IH].
Qed.

#[local] Hint Resolve keeps_ret keeps_raise keeps_lift keeps_get_self keeps_emit
  keeps_create_task : keeps.

Ltac keeps_step :=
  first
    [ solve [ auto with keeps ]
    | apply keeps_bind; [| intros ? ]
    | apply keeps_for_each; intros ?
    | match goal with
      | |- keeps _ (match ?x with _ => _ end) => destruct x
      | |- keeps _ (if ?b then _ else _) => destruct b
      end ].

Lemma keeps_is_ssl : keeps P is_ssl.
Proof. unfold is_ssl. repeat keeps_step. Qed.

Lemma keeps_host : keeps P host.
Proof. unfold host. repeat keeps_step. Qed.

Lemma keeps_port : keeps P port.
Proof. unfold port. repeat keeps_step. Qed.

Lemma keeps_session : keeps P session.
Proof. unfold session. repeat keeps_step. Qed.

Lemma keeps_websocket : keeps P websocket.
Proof. unfold websocket. repeat keeps_step. Qed.

#[local] Hint Resolve keeps_is_ssl keeps_host keeps_port keeps_session keeps_websocket : keeps.

Lemma keeps_close : keeps P close.
Proof. unfold close. repeat keeps_step. Qed.

Lemma keeps_dispatch (event : Event) : keeps P (dispatch event).
Proof. unfold dispatch. repeat keeps_step. Qed.

Lemma keeps_field_is data key literal : keeps P (field_is data key literal).
Proof. unfold field_is. repeat keeps_step. Qed.

Lemma keeps_dispatch_payload cls data : keeps P (dispatch_payload cls data).
Proof. unfold dispatch_payload. keeps_step; [keeps_step | apply keeps_dispatch]. Qed.

#[local] Hint Resolve keeps_field_is keeps_dispatch_payload : keeps.

Lemma keeps_on_message (msg : WSMessage) : keeps P (on_message msg).
Proof. unfold on_message. repeat keeps_step. Qed.

Lemma keeps__start_listening (frames : list WSMessage) :
  keeps P (_start_listening frames).
Proof.
  pose proof keeps_on_message. unfold _start_listening. repeat keeps_step.
Qed.

Lemma keeps_get (path : string) : keeps P (get path).
Proof. unfold get, http_get, raise_for_status. repeat keeps_step. Qed.

Lemma keeps_get_players (session_id : string) : keeps P (get_players session_id).
Proof. unfold get_players. keeps_step; [apply keeps_get|]. repeat keeps_step. Qed.

End Frame.

#[local] Instance same_self_preorder : PreOrder same_self.
Proof.
  split.
  - intros w. reflexivity.
  - intros w1 w2 w3 H12 H23. unfold same_self in *. congruence.
Qed.

#[local] Instance trace_grows_preorder : PreOrder trace_grows.
Proof.
  split.
  - intros w. exists []. symmetry. apply app_nil_r.
  - intros w1 w2 w3 [r1 H1] [r2 H2]. exists (r1 ++ r2).
    rewrite H2, H1. symmetry. apply app_assoc.
Qed.

Lemma same_self_emit (w : world) (e : effect) :
  same_self w {| self := self w; trace := trace w ++ [e] |}.
Proof. reflexivity. Qed.

Lemma trace_grows_emit (w : world) (e : effect) :
  trace_grows w {| self := self w; trace := trace w ++ [e] |}.
Proof. exists [e]. reflexivity. Qed.

(** Runs the monad's plumbing and the accessors on the current goal. *)
Ltac mrun :=
  cbv [bind ret raise lift get_self put_self emit create_task
       is_ssl host port session websocket];
  cbn [self trace fst snd].

Lemma _start_listening_trace (frames : list WSMessage) (w : world) ws :
  _websocket (self w) = Some ws ->
  exists rest, trace (_start_listening frames w).2 = trace w ++ [WsEnter ws] ++ rest.
Proof.
  intros Hws.
  assert (Hloop : keeps trace_grows (for_each on_message frames)).
  { apply keeps_for_each; [apply _|]. intros msg.
    apply keeps_on_message; [apply _ | apply trace_grows_emit]. }
  unfold _start_listening. mrun. rewrite Hws. mrun.
  match goal with |- context [for_each on_message frames ?w1] =>
    specialize (Hloop w1); destruct (for_each on_message frames w1) as [[e|[]] w2]
  end; destruct Hloop as [rest Hrest]; exists rest; simpl in *;
    rewrite Hrest, <- app_assoc; reflexivity.
Qed.

(** [str] prints in decimal, with a sign for negative numbers. *)
Lemma str_decimal : str 80 = "80" /\ str 1 = "1" /\ str 0 = "0" /\ str (-5) = "-5".
Proof. repeat split; vm_compute; reflexivity. Qed.

(** *** Session state *)

(** C5: each of the accessors [is_ssl], [host], [port], [session] and
    [websocket], called while its field is still unset, raises the
    [RuntimeError] that says [connect()] was not called, and leaves the
    client as it was; no value is returned. *)
Theorem accessors_unset_raise (w : world) :
  (_is_ssl (self w) = None -> is_ssl w = (inl not_connected, w)) /\
  (_host (self w) = None -> host w = (inl not_connected, w)) /\
  (_port (self w) = None -> port w = (inl not_connected, w)) /\
  (_session (self w) = None -> session w = (inl not_connected, w)) /\
  (_websocket (self w) = None -> websocket w = (inl not_connected, w)).
Proof.
  unfold is_ssl, host, port, session, websocket, bind, get_self, raise.
  repeat split; intros ->; reflexivity.
Qed.

(** *** connect *)

Lemma connect_runs host port password bot_id resume_key is_ssl (w : world) :
  connect host port password bot_id resume_key is_ssl w =
  (inr tt,
   {| self :=
        {| _is_ssl := Some is_ssl; _host := Some host; _port := Some port;
           _session := Some {| headers := connect_headers password bot_id resume_key |};
           _websocket :=
             Some {| ws_session := {| headers := connect_headers password bot_id resume_key |};
                     ws_url := websocket_url host port is_ssl |};
           event_listeners := event_listeners (self w) |};
      trace := trace w ++ [CreateTask StartListening] |}).
Proof. reflexivity. Qed.

Lemma connect_headers_lookup password bot_id resume_key (name : string) :
  connect_headers password bot_id resume_key !! name =
    if decide (name = "Authorization") then Some password
    else if decide (name = "User-Id") then Some (str bot_id)
    else if decide (name = "Client-Name") then Some "lava.py/0.0.0"
    else if decide (name = "Resume-Key") then
      match resume_key with
      | Some key => if decide (key = "") then None else Some key
      | None => None
      end
    else None.
Proof.
  unfold connect_headers, truthy.
  destruct resume_key as [key|].
  - destruct (String.eqb_spec key "") as [->|Hne]; simpl.
    + repeat case_decide; simplify_map_eq; done.
    + repeat case_decide; simplify_map_eq; done.
  - repeat case_decide; simplify_map_eq; done.
Qed.

(** C2, as the code has it: [connect] stores a session whose headers are
    exactly [Authorization] = password, [User-Id] = [str(bot_id)],
    [Client-Name], and [Resume-Key] = the resume key exactly when a resume
    key other than the empty string was passed: a key that was passed and is
    not empty is sent, and [None] and the empty string send no [Resume-Key].
    It stores the WebSocket request for
    [{scheme}://{host}:{port}/v3/websocket] with scheme [wss] if and only if
    [is_ssl], which is the request [_start_listening] then enters;
    [connect("h", 80, "p", 1)] gives [ws://h:80/v3/websocket]. *)
Theorem connect_websocket_and_headers :
  (forall host port password bot_id resume_key is_ssl (w : world),
    exists s ws w',
      connect host port password bot_id resume_key is_ssl w = (inr tt, w') /\
      _session (self w') = Some s /\
      _websocket (self w') = Some ws /\
      ws_session ws = s /\
      (exists scheme,
         (scheme = "wss" <-> is_ssl = true) /\
         (scheme = "ws" <-> is_ssl = false) /\
         ws_url ws = scheme +:+ "://" +:+ host +:+ ":" +:+ fmt_port port +:+ "/v3/websocket") /\
      headers s !! "Authorization" = Some password /\
      headers s !! "User-Id" = Some (str bot_id) /\
      headers s !! "Client-Name" = Some "lava.py/0.0.0" /\
      (forall key, headers s !! "Resume-Key" = Some key -> resume_key = Some key) /\
      (forall key, resume_key = Some key -> key <> "" ->
         headers s !! "Resume-Key" = Some key) /\
      (resume_key = None \/ resume_key = Some "" -> headers s !! "Resume-Key" = None) /\
      (forall name, is_Some (headers s !! name) ->
         name = "Authorization" \/ name = "User-Id" \/ name = "Client-Name" \/
         name = "Resume-Key") /\
      (forall frames, exists r w'',
         _start_listening frames w' = (r, w'') /\
         exists rest, trace w'' = trace w ++ [CreateTask StartListening; WsEnter ws] ++ rest)) /\
  (forall (w : world),
    exists s ws w',
      connect "h" (PortInt 80) "p" 1 None false w = (inr tt, w') /\
      _session (self w') = Some s /\
      _websocket (self w') = Some ws /\
      ws_url ws = "ws://h:80/v3/websocket" /\
      headers s =
        {[ "Authorization" := "p"; "User-Id" := "1"; "Client-Name" := "lava.py/0.0.0" ]}).
Proof.
  split.
  - intros host port password bot_id resume_key is_ssl w.
    eexists _, _, _. rewrite connect_runs. split; [reflexivity|].
    cbn [self _session _websocket ws_session ws_url headers trace].
    split; [reflexivity|]. split; [reflexivity|]. split; [reflexivity|].
    split.
    { exists (if is_ssl then "wss" else "ws").
      destruct is_ssl; repeat split; intros; done. }
    cbn [headers]. rewrite !connect_headers_lookup. simpl.
    split; [reflexivity|]. split; [reflexivity|]. split; [reflexivity|].
    split.
    { intros key. simpl.
      destruct resume_key as [k|]; [|done]. case_decide; congruence. }
    split.
    { intros key -> Hne. rewrite decide_False by done. reflexivity. }
    split.
    { intros [-> | ->]; reflexivity. }
    split.
    { intros name [v Hv]. rewrite connect_headers_lookup in Hv.
      repeat case_decide; auto; done. }
    intros frames.
    match goal with |- context [_start_listening frames ?w1] => set (w' := w1) end.
    destruct (_start_listening_trace frames w' _ eq_refl) as [rest Hrest].
    destruct (_start_listening frames w') as [r w''].
    exists r, w''. split; [reflexivity|]. exists rest.
    simpl in Hrest. rewrite Hrest. unfold w'. simpl. rewrite <- !app_assoc. reflexivity.
  - intros w. eexists _, _, _. rewrite connect_runs. split; [reflexivity|]. simpl.
    split; [reflexivity|]. split; [reflexivity|]. split; reflexivity.
Qed.


(** C9: [connect] sends [Resume-Key] exactly when [resume_key] is truthy,
    that is a string other than the empty one, and then with that string as
    its value; [connect] with the empty string does what [connect] with
    [None] does. *)
Theorem resume_key_sent_iff_truthy
    host port password bot_id resume_key is_ssl (w : world) :
  (exists s,
     _session (self (connect host port password bot_id resume_key is_ssl w).2) = Some s /\
     (is_Some (headers s !! "Resume-Key") <-> truthy resume_key = true) /\
     (truthy resume_key = true <-> exists key, resume_key = Some key /\ key <> "") /\
     (truthy resume_key = true -> headers s !! "Resume-Key" = resume_key)) /\
  connect host port password bot_id (Some "") is_ssl w =
    connect host port password bot_id None is_ssl w.
Proof.
  split; [|reflexivity].
  rewrite connect_runs. eexists. split; [reflexivity|]. cbn [headers].
  rewrite connect_headers_lookup. simpl. unfold truthy.
  destruct resume_key as [key|].
  - destruct (String.eqb_spec key "") as [->|Hne]; simpl.
    + split; [|split].
      * split; [intros [v Hv]; discriminate | discriminate].
      * split; [discriminate | intros (k & [= <-] & Hk); done].
      * discriminate.
    + rewrite decide_False by done. split; [|split].
      * split; [reflexivity | eauto].
      * split; [eauto | reflexivity].
      * reflexivity.
  - split; [|split].
    + split; [intros [v Hv]; discriminate | discriminate].
    + split; [discriminate | intros (k & [=] & _)].
    + discriminate.
Qed.

(** *** Listener registry *)

Lemma for_each_create_task {A} (f : A -> coroutine) (l : list A) (w : world) :
  for_each (fun x => create_task (f x)) l w =
  (inr tt, {| self := self w; trace := trace w ++ ((fun x => CreateTask (f x)) <$> l) |}).
Proof.
  revert w. induction l as [|x l IH]; intros w; simpl.
  - mrun. rewrite app_nil_r. destruct w; reflexivity.
  - mrun. rewrite IH. cbn [self trace]. rewrite <- app_assoc. reflexivity.
Qed.

Lemma dispatch_runs (event : Event) (w : world) :
  dispatch event w =
  (inr tt,
   {| self := self w;
      trace := trace w ++
        ((fun listener => CreateTask (Listener listener event)) <$>
           registered w (type_of event)) |}).
Proof.
  unfold dispatch, registered. mrun.
  destruct (event_listeners (self w) !! type_of event) as [[|cb l]|]; simpl.
  - rewrite app_nil_r. destruct w; reflexivity.
  - apply (for_each_create_task (fun listener => Listener listener event) (cb :: l)).
  - rewrite app_nil_r. destruct w; reflexivity.
Qed.

Lemma listen_runs (cls : EventType) (callback : EventsCallbackT) (w : world) :
  listen cls callback w =
  (inr tt,
   {| self :=
        {| _is_ssl := _is_ssl (self w); _host := _host (self w);
           _port := _port (self w); _session := _session (self w);
           _websocket := _websocket (self w);
           event_listeners :=
             <[cls := registered w cls ++ [callback]]> (event_listeners (self w)) |};
      trace := trace w |}).
Proof.
  unfold listen, registered, set_listeners. mrun.
  destruct (event_listeners (self w) !! cls); reflexivity.
Qed.

Lemma registered_listen (cls cls' : EventType) (callback : EventsCallbackT) (w : world) :
  registered (listen cls callback w).2 cls' =
  registered w cls' ++ (if decide (cls = cls') then [callback] else []).
Proof.
  rewrite listen_runs. unfold registered at 1. cbn [self event_listeners snd].
  rewrite lookup_insert. case_decide as Heq.
  - subst. reflexivity.
  - rewrite app_nil_r. reflexivity.
Qed.

Lemma listen_all_runs (regs : list (EventType * EventsCallbackT)) (w : world) :
  exists w',
    listen_all regs w = (inr tt, w') /\
    trace w' = trace w /\
    forall cls,
      registered w' cls = registered w cls ++ (filter (fun r => r.1 = cls) regs).*2.
Proof.
  unfold listen_all. revert w. induction regs as [|[t cb] regs IH]; intros w.
  - exists w. split; [reflexivity|]. split; [reflexivity|].
    intros cls. simpl. rewrite app_nil_r. reflexivity.
  - simpl. unfold bind at 1.
    pose proof (registered_listen t) as Hreg.
    specialize (Hreg) with (callback := cb) (w := w).
    rewrite listen_runs in *. cbn [snd] in Hreg.
    match goal with |- context [for_each _ regs ?w1] => destruct (IH w1) as (w' & Hrun & Htr & Hall) end.
    exists w'. split; [exact Hrun|]. split; [exact Htr|].
    intros cls. rewrite Hall, Hreg, <- app_assoc. f_equal.
    rewrite filter_cons. cbn [fst]. case_decide; reflexivity.
Qed.

(** C3: [dispatch(event)] creates one task per callback registered for
    [type(event)], in registration order, runs none of them and returns;
    the client object is left as it was.  After any sequence of
    registrations the tasks are exactly the callbacks registered for that
    class, one per registration, in the order of the [listen] calls.  With
    no callback registered for the class, [dispatch] changes nothing and
    returns. *)
Theorem dispatch_schedules_registered :
  (forall (event : Event) (w : world),
     dispatch event w =
     (inr tt,
      {| self := self w;
         trace := trace w ++
           ((fun listener => CreateTask (Listener listener event)) <$>
              registered w (type_of event)) |})) /\
  (forall (regs : list (EventType * EventsCallbackT)) (event : Event) (w : world),
     exists w',
       listen_all regs w = (inr tt, w') /\
       dispatch event w' =
       (inr tt,
        {| self := self w';
           trace := trace w ++
             ((fun listener => CreateTask (Listener listener event)) <$>
                (registered w (type_of event) ++
                 (filter (fun r => r.1 = type_of event) regs).*2)) |})) /\
  (forall (event : Event) (w : world),
     registered w (type_of event) = [] -> dispatch event w = (inr tt, w)).
Proof.
  split; [exact dispatch_runs|]. split.
  - intros regs event w.
    destruct (listen_all_runs regs w) as (w' & Hrun & Htr & Hall).
    exists w'. split; [exact Hrun|].
    rewrite dispatch_runs, Hall, Htr. reflexivity.
  - intros event w Hnone. rewrite dispatch_runs, Hnone. simpl.
    rewrite app_nil_r. destruct w; reflexivity.
Qed.


(** C10: the registry is changed by the decorator that [listen] returns and
    by nothing else: [dispatch], the handling of a frame and the whole frame
    loop end, returning or raising, with [event_listeners] as they found it,
    and so do [connect], [close], [get], [get_players] and the accessors;
    the decorator appends its callback to the list of its class. *)
Theorem registry_changed_only_by_listen :
  (forall (event : Event) (w : world),
     event_listeners (self (dispatch event w).2) = event_listeners (self w)) /\
  (forall (msg : WSMessage) (w : world),
     event_listeners (self (on_message msg w).2) = event_listeners (self w)) /\
  (forall (frames : list WSMessage) (w : world),
     event_listeners (self (_start_listening frames w).2) = event_listeners (self w)) /\
  (forall host port password bot_id resume_key is_ssl (w : world),
     event_listeners (self (connect host port password bot_id resume_key is_ssl w).2)
     = event_listeners (self w)) /\
  (forall (w : world),
     event_listeners (self (close w).2) = event_listeners (self w)) /\
  (forall (path : string) (w : world),
     event_listeners (self (get path w).2) = event_listeners (self w)) /\
  (forall (session_id : string) (w : world),
     event_listeners (self (get_players session_id w).2) = event_listeners (self w)) /\
  (forall (w : world),
     event_listeners (self (is_ssl w).2) = event_listeners (self w) /\
     event_listeners (self (host w).2) = event_listeners (self w) /\
     event_listeners (self (port w).2) = event_listeners (self w) /\
     event_listeners (self (session w).2) = event_listeners (self w) /\
     event_listeners (self (websocket w).2) = event_listeners (self w)) /\
  (forall (cls : EventType) (callback : EventsCallbackT) (w : world),
     event_listeners (self (listen cls callback w).2) =
       <[cls := registered w cls ++ [callback]]> (event_listeners (self w))).
Proof.
  assert (Hsame : forall {A} (m : M A) (w : world),
             keeps same_self m -> event_listeners (self (m w).2) = event_listeners (self w)).
  { intros A m w Hm. rewrite (Hm w). reflexivity. }
  repeat apply conj; intros; repeat apply conj.
  - apply Hsame, keeps_dispatch; [apply _ | apply same_self_emit].
  - apply Hsame, keeps_on_message; [apply _ | apply same_self_emit].
  - apply Hsame, keeps__start_listening; [apply _ | apply same_self_emit].
  - rewrite connect_runs. reflexivity.
  - apply Hsame, keeps_close; [apply _ | apply same_self_emit].
  - apply Hsame, keeps_get; [apply _ | apply same_self_emit].
  - apply Hsame, keeps_get_players; [apply _ | apply same_self_emit].
  - apply Hsame, keeps_is_ssl; apply _.
  - apply Hsame, keeps_host; apply _.
  - apply Hsame, keeps_port; apply _.
  - apply Hsame, keeps_session; apply _.
  - apply Hsame, keeps_websocket; apply _.
  - rewrite listen_runs. reflexivity.
Qed.

(** *** The frame loop *)

Lemma eq_str_true (v : json) (s : string) : eq_str v s = true <-> v = JStr s.
Proof.
  destruct v; simpl; try (split; [discriminate | intros [=]]).
  rewrite String.eqb_eq. split; [intros ->; reflexivity | intros [= ->]; reflexivity].
Qed.

Lemma eq_str_false (v : json) (s : string) : eq_str v s = false <-> v <> JStr s.
Proof.
  rewrite <- eq_str_true. destruct (eq_str v s); split; intros; congruence.
Qed.

Lemma field_is_runs (data : json) (key literal : string) (w : world) :
  field_is data key literal w =
  match getitem data key with
  | inl e => (inl e, w)
  | inr v => (inr (eq_str v literal), w)
  end.
Proof. unfold field_is. mrun. destruct (getitem data key); reflexivity. Qed.

Lemma for_each_app {A} (body : A -> M unit) (l1 l2 : list A) (w : world) :
  for_each body (l1 ++ l2) w =
  match for_each body l1 w with
  | (inr _, w1) => for_each body l2 w1
  | (inl e, w1) => (inl e, w1)
  end.
Proof.
  revert w. induction l1 as [|x l1 IH]; intros w; simpl.
  - reflexivity.
  - unfold bind at 1 2. destruct (body x w) as [[e|[]] w1]; [reflexivity|]. apply IH.
Qed.

Lemma _start_listening_app (pre rest : list WSMessage) (w : world) :
  _start_listening (pre ++ rest) w =
  match _start_listening pre w with
  | (inr _, w1) => for_each on_message rest w1
  | (inl e, w1) => (inl e, w1)
  end.
Proof.
  unfold _start_listening. mrun.
  destruct (_websocket (self w)); [|reflexivity]. apply for_each_app.
Qed.

(** A frame the loop handles by doing nothing is as good as absent. *)
Lemma _start_listening_skip (pre rest : list WSMessage) (msg : WSMessage) (w : world) :
  (forall w1, on_message msg w1 = (inr tt, w1)) ->
  _start_listening (pre ++ msg :: rest) w = _start_listening (pre ++ rest) w.
Proof.
  intros Hskip. rewrite !_start_listening_app.
  destruct (_start_listening pre w) as [[e|[]] w1]; [reflexivity|].
  simpl. unfold bind. rewrite Hskip. reflexivity.
Qed.


(** Steps through the chain of [data[key] == literal] tests of [on_message],
    using what is known of the lookups and comparisons. *)
Ltac step_tests :=
  repeat first
    [ rewrite field_is_runs
    | match goal with
      | H : getitem _ _ = _ |- _ => rewrite H
      | H : eq_str _ _ = _ |- _ => rewrite H
      end
    | progress cbn [eq_str String.eqb Ascii.eqb Bool.eqb fst snd] ].

(** C4: a frame with [op == "event"] whose [type] is present and is none of
    the five event names, and a frame whose [op] is present and is none of
    [ready], [playerUpdate], [stats], [event], is handled by doing nothing:
    no event is decoded (whatever [from_payload] would do), no task is
    created, nothing is raised, and the loop goes on to the next frame as if
    the frame had not been sent. *)
Theorem unknown_frames_dropped (msg : WSMessage) (d : json) :
  json_loads (data msg) = inr d ->
  ((exists ty,
      getitem d "op" = inr (JStr "event") /\
      getitem d "type" = inr ty /\
      ty ∉ [JStr "TrackStartEvent"; JStr "TrackEndEvent"; JStr "TrackExceptionEvent";
            JStr "TrackStuckEvent"; JStr "WebSocketClosedEvent"]) \/
   (exists op,
      getitem d "op" = inr op /\
      op ∉ [JStr "ready"; JStr "playerUpdate"; JStr "stats"; JStr "event"])) ->
  (forall w : world, on_message msg w = (inr tt, w)) /\
  (forall (pre rest : list WSMessage) (w : world),
     _start_listening (pre ++ msg :: rest) w = _start_listening (pre ++ rest) w).
Proof.
  intros Hload Hcase.
  assert (Hskip : forall w : world, on_message msg w = (inr tt, w)).
  { intros w. unfold on_message. unfold bind at 1. unfold lift at 1. rewrite Hload.
    destruct Hcase as [(ty & Hop & Hty & Hnot) | (op & Hop & Hnot)].
    - rewrite !not_elem_of_cons in Hnot.
      destruct Hnot as (H1 & H2 & H3 & H4 & H5 & _).
      apply eq_str_false in H1, H2, H3, H4, H5.
      unfold bind. step_tests. reflexivity.
    - rewrite !not_elem_of_cons in Hnot.
      destruct Hnot as (H1 & H2 & H3 & H4 & _).
      apply eq_str_false in H1, H2, H3, H4.
      unfold bind. step_tests. reflexivity. }
  split; [exact Hskip|].
  intros pre rest w. apply _start_listening_skip, Hskip.
Qed.

(** C8: a frame that decodes to a [dict] without the key [op] makes the
    loop raise [KeyError('op')], and one with [op == "event"] and without
    the key [type] makes it raise [KeyError('type')]; the frames already
    handled keep their effects, the frames that follow are never read. *)
Theorem missing_key_raises_KeyError (msg : WSMessage) (fields : list (string * json)) :
  json_loads (data msg) = inr (JObj fields) ->
  (assoc "op" fields = None ->
     (forall w : world, on_message msg w = (inl (KeyError "op"), w)) /\
     (forall (pre rest : list WSMessage) (w w1 : world),
        _start_listening pre w = (inr tt, w1) ->
        _start_listening (pre ++ msg :: rest) w = (inl (KeyError "op"), w1))) /\
  (assoc "op" fields = Some (JStr "event") -> assoc "type" fields = None ->
     (forall w : world, on_message msg w = (inl (KeyError "type"), w)) /\
     (forall (pre rest : list WSMessage) (w w1 : world),
        _start_listening pre w = (inr tt, w1) ->
        _start_listening (pre ++ msg :: rest) w = (inl (KeyError "type"), w1))).
Proof.
  intros Hload.
  assert (Hstop : forall e,
            (forall w : world, on_message msg w = (inl e, w)) ->
            forall (pre rest : list WSMessage) (w w1 : world),
              _start_listening pre w = (inr tt, w1) ->
              _start_listening (pre ++ msg :: rest) w = (inl e, w1)).
  { intros e Hraise pre rest w w1 Hpre.
    rewrite _start_listening_app, Hpre. simpl. unfold bind. rewrite Hraise. reflexivity. }
  split.
  - intros Hop.
    assert (Hraise : forall w : world, on_message msg w = (inl (KeyError "op"), w)).
    { intros w. unfold on_message. unfold bind at 1. unfold lift at 1. rewrite Hload.
      unfold bind. rewrite field_is_runs. unfold getitem. rewrite Hop. reflexivity. }
    split; [exact Hraise | exact (Hstop _ Hraise)].
  - intros Hop Hty.
    assert (Hraise : forall w : world, on_message msg w = (inl (KeyError "type"), w)).
    { intros w. unfold on_message. unfold bind at 1. unfold lift at 1. rewrite Hload.
      assert (Hop' : getitem (JObj fields) "op" = inr (JStr "event"))
        by (unfold getitem; rewrite Hop; reflexivity).
      assert (Hty' : getitem (JObj fields) "type" = inl (KeyError "type"))
        by (unfold getitem; rewrite Hty; reflexivity).
      unfold bind. step_tests. reflexivity. }
    split; [exact Hraise | exact (Hstop _ Hraise)].
Qed.


(** X1: a frame that decodes to anything but a [dict] cannot be indexed by
    [op]: the loop raises [TypeError] and ends; the frames already handled
    keep their effects, the frames that follow are never read. *)
Lemma non_dict_frame_raises_TypeError (msg : WSMessage) (d : json) :
  json_loads (data msg) = inr d ->
  (forall fields, d <> JObj fields) ->
  exists m,
    (forall w : world, on_message msg w = (inl (TypeError m), w)) /\
    (forall (pre rest : list WSMessage) (w w1 : world),
       _start_listening pre w = (inr tt, w1) ->
       _start_listening (pre ++ msg :: rest) w = (inl (TypeError m), w1)).
Proof.
  intros Hload Hnot.
  assert (Hget : exists m, getitem d "op" = inl (TypeError m)).
  { destruct d; simpl; eauto. destruct (Hnot fields eq_refl). }
  destruct Hget as [m Hget]. exists m.
  assert (Hraise : forall w : world, on_message msg w = (inl (TypeError m), w)).
  { intros w. unfold on_message. unfold bind at 1. unfold lift at 1. rewrite Hload.
    unfold bind. rewrite field_is_runs, Hget. reflexivity. }
  split; [exact Hraise|].
  intros pre rest w w1 Hpre.
  rewrite _start_listening_app, Hpre. simpl. unfold bind. rewrite Hraise. reflexivity.
Qed.

(** *** REST *)

(** What [get] does on a client whose four fields are set: one request,
    then one of five outcomes. *)
Lemma get_runs (path : string) (w : world) s ssl h p :
  _session (self w) = Some s ->
  _is_ssl (self w) = Some ssl ->
  _host (self w) = Some h ->
  _port (self w) = Some p ->
  get path w =
  (match node s (get_url ssl h p path) with
   | inl e => inl e
   | inr res =>
       match res_json res with
       | inl e => inl e
       | inr body =>
           if ok res then inr body
           else
             match LavalinkError_from_payload body with
             | inl e => inl e
             | inr _ => inl (ClientResponseError (status res))
             end
       end
   end,
   {| self := self w; trace := trace w ++ [HttpGet s (get_url ssl h p path)] |}).
Proof.
  intros Hs Hssl Hh Hp. unfold get, http_get, raise_for_status. mrun.
  rewrite Hs, Hssl, Hh, Hp.
  destruct (node s (get_url ssl h p path)) as [e|res]; [reflexivity|].
  destruct (res_json res) as [e|body]; [reflexivity|].
  destruct (ok res); simpl; [reflexivity|].
  destruct (LavalinkError_from_payload body); reflexivity.
Qed.

(** C1, where the code departs from it: on a connected client [get(p)]
    sends exactly one GET, through the session that carries the headers of
    [connect], with scheme [http] when [is_ssl] is true and [https]
    otherwise, but the URL is
    [{scheme}://{host}:{port}/v3/{p}&trace=true]: the trace flag is glued to
    the path with [&] and no [?], so what is requested is not the path
    [p]. *)
Theorem get_requests_path_with_trace
    host port password bot_id resume_key is_ssl (path : string) (w0 : world) :
  exists s r w w',
    connect host port password bot_id resume_key is_ssl w0 = (inr tt, w) /\
    _session (self w) = Some s /\
    headers s !! "Authorization" = Some password /\
    headers s !! "User-Id" = Some (str bot_id) /\
    is_Some (headers s !! "Client-Name") /\
    get path w = (r, w') /\
    exists scheme,
      (scheme = "http" <-> is_ssl = true) /\
      (scheme = "https" <-> is_ssl = false) /\
      trace w' = trace w ++
        [HttpGet s (scheme +:+ "://" +:+ host +:+ ":" +:+ fmt_port port +:+ "/v3/"
                      +:+ path +:+ "&trace=true")].
Proof.
  rewrite connect_runs. eexists _, _, _, _. split; [reflexivity|].
  cbn [self _session]. split; [reflexivity|]. cbn [headers].
  rewrite !connect_headers_lookup. simpl.
  split; [reflexivity|]. split; [reflexivity|]. split; [eauto|].
  erewrite get_runs by reflexivity. split; [reflexivity|].
  exists (if is_ssl then "http" else "https"). cbn [trace].
  destruct is_ssl; repeat apply conj; try reflexivity; try done.
Qed.

(** C6, where the code stops short of it: when the response is not [ok]
    (status 400 or above), its body decodes and the error factory returns an
    error, [get] raises aiohttp's [ClientResponseError] for the status, not
    the error built from the body: the [from] clause of the [raise] calls
    [res.raise_for_status()], which raises first.  On an [ok] response [get]
    returns the decoded body. *)
Theorem get_not_ok_raises_ClientResponseError
    (path : string) (w : world) s ssl h p res body error :
  _session (self w) = Some s ->
  _is_ssl (self w) = Some ssl ->
  _host (self w) = Some h ->
  _port (self w) = Some p ->
  node s (get_url ssl h p path) = inr res ->
  res_json res = inr body ->
  LavalinkError_from_payload body = inr error ->
  (ok res = false -> (get path w).1 = inl (ClientResponseError (status res))) /\
  (ok res = true -> (get path w).1 = inr body).
Proof.
  intros Hs Hssl Hh Hp Hnode Hbody Herror.
  rewrite (get_runs path w s ssl h p Hs Hssl Hh Hp), Hnode, Hbody, Herror.
  split; intros ->; reflexivity.
Qed.

(** C7, as the code has it: [get_players(session_id)] calls
    [get("sessions/{session_id}/players")]; if that raises, the same
    exception is raised; if it returns a JSON array, each element is decoded
    by [Player.from_payload] and the players are returned one per element,
    in the order of the array; if any element fails to decode, the call
    raises and returns no players. *)
Theorem get_players_decodes_array (session_id : string) (w w' : world) :
  (forall e,
     get ("sessions/" +:+ session_id +:+ "/players") w = (inl e, w') ->
     get_players session_id w = (inl e, w')) /\
  (forall items,
     get ("sessions/" +:+ session_id +:+ "/players") w = (inr (JArr items), w') ->
     (forall players,
        Forall2 (fun item player => Player_from_payload item = inr player) items players ->
        get_players session_id w = (inr players, w')) /\
     (Exists (fun item => exists e, Player_from_payload item = inl e) items ->
        exists e, get_players session_id w = (inl e, w'))).
Proof.
  split.
  - intros e Hget. unfold get_players. unfold bind at 1. rewrite Hget. reflexivity.
  - intros items Hget. unfold get_players. unfold bind at 1 3. rewrite Hget.
    mrun. clear Hget. split.
    + intros players Hall. f_equal.
      induction Hall as [|item player items players Hitem _ IH]; simpl.
      * reflexivity.
      * rewrite Hitem, IH. reflexivity.
    + intros Hex. induction Hex as [item items (e & He)|item items _ (e & IH)]; simpl.
      * rewrite He. eauto.
      * destruct (Player_from_payload item) as [e'|player]; [eauto|].
        simpl in IH. destruct (map_result Player_from_payload items) as [e'|players];
          [eauto | discriminate IH].
Qed.

(** ** Further properties of the methods *)

(** *** Lifecycle *)

(** X2: after [connect], on any client, the five accessors return what
    [connect] stored and raise nothing: the flag, host and port as passed,
    also when the flag is [False], the host is empty or the port is [0],
    and the session and WebSocket request that [connect] built. *)
Theorem accessors_return_what_connect_stored
    host_ port_ password bot_id resume_key is_ssl_ (w0 : world) :
  exists w s ws,
    connect host_ port_ password bot_id resume_key is_ssl_ w0 = (inr tt, w) /\
    is_ssl w = (inr is_ssl_, w) /\
    host w = (inr host_, w) /\
    port w = (inr port_, w) /\
    session w = (inr s, w) /\
    websocket w = (inr ws, w) /\
    ws_session ws = s /\
    headers s !! "Authorization" = Some password.
Proof.
  rewrite connect_runs. eexists _, _, _. split; [reflexivity|].
  repeat apply conj; try reflexivity.
  cbn [headers]. rewrite connect_headers_lookup. reflexivity.
Qed.

(** X3: a second [connect] replaces what the first stored and closes
    nothing: the client ends as if only the second call had been made, the
    first session and WebSocket are dropped without a [close], and two
    listening tasks have been created. *)
Theorem connect_again_replaces_without_closing
    host1 port1 password1 bot_id1 resume_key1 is_ssl1
    host2 port2 password2 bot_id2 resume_key2 is_ssl2 (w : world) :
  exists w1 w2,
    connect host1 port1 password1 bot_id1 resume_key1 is_ssl1 w = (inr tt, w1) /\
    connect host2 port2 password2 bot_id2 resume_key2 is_ssl2 w1 = (inr tt, w2) /\
    self w2 = self (connect host2 port2 password2 bot_id2 resume_key2 is_ssl2 w).2 /\
    trace w2 = trace w ++ [CreateTask StartListening; CreateTask StartListening].
Proof.
  eexists _, _. rewrite !connect_runs. split; [reflexivity|]. split; [reflexivity|].
  cbn [self trace snd event_listeners]. split; [reflexivity|].
  rewrite <- app_assoc. reflexivity.
Qed.

(** X4: [close] closes the session first and the WebSocket second and
    leaves the fields of the client set, so the accessors keep returning the
    closed objects.  Without a session it raises and closes nothing; with a
    session and no WebSocket it raises after it has closed the session. *)
Theorem close_closes_session_then_websocket (w : world) :
  (_session (self w) = None -> close w = (inl not_connected, w)) /\
  (forall s,
     _session (self w) = Some s -> _websocket (self w) = None ->
     close w =
       (inl not_connected, {| self := self w; trace := trace w ++ [SessionClose s] |})) /\
  (forall s ws,
     _session (self w) = Some s -> _websocket (self w) = Some ws ->
     close w =
       (inr tt, {| self := self w; trace := trace w ++ [SessionClose s; WsClose ws] |})).
Proof.
  unfold close. mrun. repeat apply conj.
  - intros ->. reflexivity.
  - intros s -> ->. reflexivity.
  - intros s ws -> ->. cbn [self trace]. rewrite <- app_assoc. reflexivity.
Qed.

(** X5: before [connect], the frame loop, [get] and [get_players] raise
    the [RuntimeError] of the accessors at their first step: no WebSocket is
    entered, no frame is read, no request is sent. *)
Theorem methods_before_connect_raise (w : world) :
  (_websocket (self w) = None ->
     forall frames, _start_listening frames w = (inl not_connected, w)) /\
  (_session (self w) = None ->
     forall path, get path w = (inl not_connected, w)) /\
  (_session (self w) = None ->
     forall session_id, get_players session_id w = (inl not_connected, w)).
Proof.
  repeat apply conj.
  - intros Hws frames. unfold _start_listening. mrun. rewrite Hws. reflexivity.
  - intros Hs path. unfold get. mrun. rewrite Hs. reflexivity.
  - intros Hs session_id. unfold get_players, get. mrun. rewrite Hs. reflexivity.
Qed.

(** *** The frame loop *)

(** X6: a frame whose [op], and for an [event] frame whose [type], is the
    one the loop tests for a class is decoded by that class and by no other,
    whatever else the frame holds (a [ready] frame may carry a [type]); the
    event built is dispatched to the callbacks registered for its type, one
    task each in registration order; when the class fails to decode the
    frame, its exception is raised and no task is created. *)
Theorem recognized_frame_dispatches_its_class
    (cls : EventType) (msg : WSMessage) (d : json) (w : world) :
  json_loads (data msg) = inr d ->
  getitem d "op" = inr (JStr (wire_op cls)) ->
  (forall t, wire_type cls = Some t -> getitem d "type" = inr (JStr t)) ->
  on_message msg w =
    match Event_from_payload cls d with
    | inl e => (inl e, w)
    | inr event =>
        (inr tt,
         {| self := self w;
            trace := trace w ++
              ((fun listener => CreateTask (Listener listener event)) <$>
                 registered w (type_of event)) |})
    end.
Proof.
  intros Hload Hop Hty.
  assert (Hrun : forall c,
            dispatch_payload c d w =
            match Event_from_payload c d with
            | inl e => (inl e, w)
            | inr event =>
                (inr tt,
                 {| self := self w;
                    trace := trace w ++
                      ((fun listener => CreateTask (Listener listener event)) <$>
                         registered w (type_of event)) |})
            end).
  { intros c. unfold dispatch_payload, bind, lift.
    destruct (Event_from_payload c d); [reflexivity | apply dispatch_runs]. }
  unfold on_message. unfold bind at 1. unfold lift at 1. rewrite Hload.
  destruct cls; simpl in Hop;
    first [specialize (Hty _ eq_refl) | clear Hty];
    unfold bind; step_tests; apply Hrun.
Qed.

(** X7: a frame that [json.loads] rejects ends the loop with the decoder's
    exception: nothing is dispatched for it, the frames already handled keep
    their effects and the frames that follow are never read. *)
Theorem undecodable_frame_ends_loop (msg : WSMessage) (e : exn) :
  json_loads (data msg) = inl e ->
  (forall w : world, on_message msg w = (inl e, w)) /\
  (forall (pre rest : list WSMessage) (w w1 : world),
     _start_listening pre w = (inr tt, w1) ->
     _start_listening (pre ++ msg :: rest) w = (inl e, w1)).
Proof.
  intros Hload.
  assert (Hraise : forall w : world, on_message msg w = (inl e, w)).
  { intros w. unfold on_message. unfold bind at 1. unfold lift at 1.
    rewrite Hload. reflexivity. }
  split; [exact Hraise|].
  intros pre rest w w1 Hpre.
  rewrite _start_listening_app, Hpre. simpl. unfold bind. rewrite Hraise. reflexivity.
Qed.

(** X8: the loop handles the frames one by one in the order they arrive:
    after a run of frames handled without an exception, the next frame is
    handled in the world they left and its outcome is the outcome of the
    loop; once a frame has raised, frames after it change nothing. *)
Theorem frames_handled_in_arrival_order (pre : list WSMessage) (w : world) :
  (forall (msg : WSMessage) (w1 : world),
     _start_listening pre w = (inr tt, w1) ->
     _start_listening (pre ++ [msg]) w = on_message msg w1) /\
  (forall (rest : list WSMessage) (e : exn) (w1 : world),
     _start_listening pre w = (inl e, w1) ->
     _start_listening (pre ++ rest) w = (inl e, w1)).
Proof.
  split.
  - intros msg w1 Hpre. rewrite _start_listening_app, Hpre. simpl. unfold bind.
    destruct (on_message msg w1) as [[e|[]] w2]; reflexivity.
  - intros rest e w1 Hpre. rewrite _start_listening_app, Hpre. reflexivity.
Qed.

(** *** Listener registry *)

Lemma listen_all_lookup (regs : list (EventType * EventsCallbackT)) (w : world) :
  (forall cls l, event_listeners (self w) !! cls = Some l -> l <> []) ->
  forall cls,
    event_listeners (self (listen_all regs w).2) !! cls =
    match registered w cls ++ (filter (fun r => r.1 = cls) regs).*2 with
    | [] => None
    | l => Some l
    end.
Proof.
  unfold listen_all. revert w. induction regs as [|[t cb] regs IH]; intros w Hne cls.
  - simpl. rewrite app_nil_r. unfold registered.
    destruct (event_listeners (self w) !! cls) as [l|] eqn:Hl; simpl; [|reflexivity].
    destruct l; [destruct (Hne _ _ Hl eq_refl) | reflexivity].
  - simpl. unfold bind at 1. rewrite listen_runs.
    match goal with |- context [for_each _ regs ?w1] => set (w1' := w1) end.
    assert (Hne1 : forall c l, event_listeners (self w1') !! c = Some l -> l <> []).
    { intros c l. unfold w1'. cbn [self event_listeners]. rewrite lookup_insert.
      case_decide; [|apply Hne].
      intros [= <-] Hnil. apply app_eq_nil in Hnil as [_ [=]]. }
    rewrite (IH w1' Hne1 cls).
    assert (Hreg : registered w1' cls =
                   registered w cls ++ (if decide (t = cls) then [cb] else [])).
    { unfold w1'. unfold registered at 1. cbn [self event_listeners].
      rewrite lookup_insert. case_decide as Heq.
      - subst. reflexivity.
      - rewrite app_nil_r. reflexivity. }
    rewrite Hreg, filter_cons. cbn [fst]. case_decide as Heq.
    + rewrite <- app_assoc. reflexivity.
    + rewrite app_nil_r. reflexivity.
Qed.

(** X9: registering never raises, also before [connect], touches neither
    the trace nor the five session fields, and keeps the registry well
    formed: after any registrations on a new client a class is a key of the
    registry if and only if a callback was registered for it, and no key
    holds an empty list. *)
Theorem registry_keys_are_listened_classes
    (regs : list (EventType * EventsCallbackT)) (w : world) :
  exists w',
    listen_all regs w = (inr tt, w') /\
    trace w' = trace w /\
    _is_ssl (self w') = _is_ssl (self w) /\
    _host (self w') = _host (self w) /\
    _port (self w') = _port (self w) /\
    _session (self w') = _session (self w) /\
    _websocket (self w') = _websocket (self w) /\
    (event_listeners (self w) = ∅ ->
       forall cls,
         (is_Some (event_listeners (self w') !! cls) <-> cls ∈ regs.*1) /\
         event_listeners (self w') !! cls <> Some []).
Proof.
  assert (Hfields : forall regs (w : world),
            exists w', for_each (fun r => listen r.1 r.2) regs w = (inr tt, w') /\
              trace w' = trace w /\
              _is_ssl (self w') = _is_ssl (self w) /\
              _host (self w') = _host (self w) /\
              _port (self w') = _port (self w) /\
              _session (self w') = _session (self w) /\
              _websocket (self w') = _websocket (self w)).
  { clear regs w. induction regs as [|[t cb] regs IH]; intros w.
    - exists w. repeat apply conj; reflexivity.
    - simpl. unfold bind at 1. rewrite listen_runs.
      match goal with |- context [for_each _ regs ?w1] =>
        destruct (IH w1) as (w' & Hrun & Htr & H1 & H2 & H3 & H4 & H5) end.
      exists w'. repeat apply conj; assumption. }
  destruct (Hfields regs w) as (w' & Hrun & Htr & H1 & H2 & H3 & H4 & H5).
  exists w'. repeat apply conj; try assumption.
  intros Hempty cls.
  assert (Hlook := listen_all_lookup regs w).
  unfold listen_all in Hlook. rewrite Hrun in Hlook. cbn [snd] in Hlook.
  rewrite Hlook by (intros c l; rewrite Hempty, lookup_empty; discriminate).
  unfold registered. rewrite Hempty, lookup_empty. simpl.
  split.
  - split.
    + intros Hsome. apply list_elem_of_fmap.
      destruct ((filter (fun r => r.1 = cls) regs).*2) as [|cb l] eqn:Hf;
        [destruct Hsome as [? [=]]|].
      destruct (filter (fun r => r.1 = cls) regs) as [|[c cb'] fl] eqn:Hfl; [discriminate|].
      assert (Hin : (c, cb') ∈ filter (fun r => r.1 = cls) regs)
        by (rewrite Hfl; apply list_elem_of_here).
      apply list_elem_of_filter in Hin as [Hc Hin]. exists (c, cb'). split; [symmetry; exact Hc | exact Hin].
    + intros Hin. apply list_elem_of_fmap in Hin as ([c cb] & -> & Hin).
      match goal with |- is_Some (match ?l with _ => _ end) =>
        assert (Hin' : cb ∈ l); [|destruct l; [apply elem_of_nil in Hin'; destruct Hin' | eauto]]
      end.
      apply list_elem_of_fmap. exists (c, cb). split; [reflexivity|].
      apply list_elem_of_filter. split; [reflexivity | exact Hin].
  - destruct ((filter (fun r => r.1 = cls) regs).*2); discriminate.
Qed.

(** *** REST *)

(** X10: on a connected client [get] returns a value exactly when the node
    answered with a status below 400 and a body that decodes, and the value
    is that body; a 3xx answer counts as a success, and no answer of status
    400 or above ever yields a value. *)
Theorem get_returns_exactly_ok_bodies
    (path : string) (w : world) s ssl h p (body : json) :
  _session (self w) = Some s ->
  _is_ssl (self w) = Some ssl ->
  _host (self w) = Some h ->
  _port (self w) = Some p ->
  ((get path w).1 = inr body <->
   exists res,
     node s (get_url ssl h p path) = inr res /\
     (status res < 400)%Z /\
     res_json res = inr body).
Proof.
  intros Hs Hssl Hh Hp. rewrite (get_runs path w s ssl h p Hs Hssl Hh Hp). cbn [fst].
  split.
  - destruct (node s (get_url ssl h p path)) as [e|res]; [discriminate|].
    destruct (res_json res) as [e|b] eqn:Hjson; [discriminate|].
    unfold ok. destruct (Z.ltb_spec (status res) 400) as [Hlt|Hge].
    + intros [= ->]. exists res. auto.
    + destruct (LavalinkError_from_payload b); discriminate.
  - intros (res & -> & Hlt & ->). unfold ok.
    destruct (Z.ltb_spec (status res) 400); [reflexivity | lia].
Qed.

(** X11: the order in which [get] fails: a request that gets no answer
    raises the transport's exception; an answer whose body does not decode
    raises the decoding exception whatever its status, so an error status
    with a body that is not JSON is reported as a decoding failure; only
    then is the status looked at, and an exception raised by the error
    factory on the body of an error answer is raised as it is. *)
Theorem get_failure_order (path : string) (w : world) s ssl h p :
  _session (self w) = Some s ->
  _is_ssl (self w) = Some ssl ->
  _host (self w) = Some h ->
  _port (self w) = Some p ->
  (forall e,
     node s (get_url ssl h p path) = inl e -> (get path w).1 = inl e) /\
  (forall res e,
     node s (get_url ssl h p path) = inr res -> res_json res = inl e ->
     (get path w).1 = inl e) /\
  (forall res body e,
     node s (get_url ssl h p path) = inr res -> res_json res = inr body ->
     (400 <= status res)%Z -> LavalinkError_from_payload body = inl e ->
     (get path w).1 = inl e).
Proof.
  intros Hs Hssl Hh Hp. rewrite (get_runs path w s ssl h p Hs Hssl Hh Hp). cbn [fst].
  repeat apply conj.
  - intros e ->. reflexivity.
  - intros res e -> ->. reflexivity.
  - intros res body e -> -> Hge ->. unfold ok.
    destruct (Z.ltb_spec (status res) 400); [lia | reflexivity].
Qed.

(** X12: when an element of the array fails to decode and the elements
    before it decode, [get_players] raises the exception of that element:
    the first failure in the order of the array is the one reported, and the
    elements behind it play no part. *)
Theorem get_players_raises_first_failure
    (session_id : string) (w w' : world)
    (before : list json) (item : json) (behind : list json)
    (decoded : list Player) (e : exn) :
  get ("sessions/" +:+ session_id +:+ "/players") w
    = (inr (JArr (before ++ item :: behind)), w') ->
  Forall2 (fun i player => Player_from_payload i = inr player) before decoded ->
  Player_from_payload item = inl e ->
  get_players session_id w = (inl e, w').
Proof.
  intros Hget Hbefore Hitem. unfold get_players. unfold bind at 1. rewrite Hget.
  mrun. f_equal. clear Hget.
  induction Hbefore as [|i player before decoded Hi _ IH]; simpl.
  - rewrite Hitem. reflexivity.
  - rewrite Hi, IH. reflexivity.
Qed.

(** X13: what [get_players] makes of a successful body that is not an
    array of players: an empty array gives no players; [null], a boolean or
    a number cannot be looped over and raises [TypeError]; an object is
    looped over by its keys, so the model class is given each key as a
    string, in the order of the object, instead of the values. *)
Theorem get_players_body_shapes (session_id : string) (w w' : world) :
  (get ("sessions/" +:+ session_id +:+ "/players") w = (inr (JArr []), w') ->
   get_players session_id w = (inr [], w')) /\
  (forall body,
     get ("sessions/" +:+ session_id +:+ "/players") w = (inr body, w') ->
     (forall items, body <> JArr items) ->
     (forall fields, body <> JObj fields) ->
     (forall text, body <> JStr text) ->
     exists m, get_players session_id w = (inl (TypeError m), w')) /\
  (forall fields players,
     get ("sessions/" +:+ session_id +:+ "/players") w = (inr (JObj fields), w') ->
     Forall2 (fun kv player => Player_from_payload (JStr kv.1) = inr player)
       fields players ->
     get_players session_id w = (inr players, w')).
Proof.
  repeat apply conj.
  - intros Hget. unfold get_players. unfold bind at 1. rewrite Hget. reflexivity.
  - intros body Hget Harr Hobj Hstr. unfold get_players. unfold bind at 1.
    rewrite Hget. mrun.
    destruct body; simpl; eauto.
    + destruct (Hstr s eq_refl).
    + destruct (Harr items eq_refl).
    + destruct (Hobj fields eq_refl).
  - intros fields players Hget Hall. unfold get_players. unfold bind at 1.
    rewrite Hget. mrun. f_equal. clear Hget.
    induction Hall as [|kv player fields players Hkv _ IH]; simpl.
    + reflexivity.
    + rewrite Hkv. simpl in IH. rewrite IH. reflexivity.
Qed.

(** X14: the REST scheme is the opposite of the WebSocket scheme: a client
    connected with [is_ssl] true opens the socket on [wss://] and sends
    [get] to [http://] of the same host and port, and one connected with
    [is_ssl] false opens [ws://] and sends [get] to [https://]. *)
Theorem rest_scheme_opposes_websocket_scheme
    host_ port_ password bot_id resume_key is_ssl_ (path : string) (w0 : world) :
  exists w ws s url,
    connect host_ port_ password bot_id resume_key is_ssl_ w0 = (inr tt, w) /\
    _websocket (self w) = Some ws /\
    trace (get path w).2 = trace w ++ [HttpGet s url] /\
    (is_ssl_ = true ->
       ws_url ws = "wss://" +:+ host_ +:+ ":" +:+ fmt_port port_ +:+ "/v3/websocket" /\
       url = "http://" +:+ host_ +:+ ":" +:+ fmt_port port_ +:+ "/v3/" +:+ path
               +:+ "&trace=true") /\
    (is_ssl_ = false ->
       ws_url ws = "ws://" +:+ host_ +:+ ":" +:+ fmt_port port_ +:+ "/v3/websocket" /\
       url = "https://" +:+ host_ +:+ ":" +:+ fmt_port port_ +:+ "/v3/" +:+ path
               +:+ "&trace=true").
Proof.
  rewrite connect_runs. eexists _, _, _, _. split; [reflexivity|].
  cbn [self _websocket]. split; [reflexivity|].
  erewrite get_runs by reflexivity. cbn [snd trace]. split; [reflexivity|].
  split; intros ->; split; reflexivity.
Qed.

End Client.

(** ** The client on concrete inputs

    The theorems above, applied to the two clients [fresh] and [connected]
    with the stand-ins of [Stub] as collaborators. *)

(** Before [connect], all five accessors raise. *)
Lemma accessors_raise_on_fresh_client :
  let w : world (Event := Stub.Event) := fresh in
  is_ssl w = (inl not_connected, w) /\
  host w = (inl not_connected, w) /\
  port w = (inl not_connected, w) /\
  session w = (inl not_connected, w) /\
  websocket w = (inl not_connected, w).
Proof.
  intros w.
  destruct (accessors_unset_raise w) as (H1 & H2 & H3 & H4 & H5).
  repeat apply conj;
    [apply H1 | apply H2 | apply H3 | apply H4 | apply H5]; reflexivity.
Defined.

(** Two listeners of one class and one of another: dispatching a
    [TrackStartEvent] once creates a task for each of the two, in the order
    they were registered, and none for the third; dispatching a [StatsEvent],
    which has no listener, does nothing. *)
Lemma dispatch_two_listeners :
  let event := {| Stub.cls := TrackStartEvent; Stub.payload := JNull |} in
  exists w,
    listen_all [(TrackStartEvent, Callback 1); (ReadyEvent, Callback 2);
                (TrackStartEvent, Callback 3)] fresh = (inr tt, w) /\
    dispatch Stub.type_of event w =
      (inr tt,
       {| self := self w;
          trace := [CreateTask (Listener (Callback 1) event);
                    CreateTask (Listener (Callback 3) event)] |}) /\
    dispatch Stub.type_of {| Stub.cls := StatsEvent; Stub.payload := JNull |} w = (inr tt, w).
Proof.
  intros event.
  destruct (dispatch_schedules_registered Stub.type_of) as (_ & Hregs & Hnone).
  destruct (Hregs [(TrackStartEvent, Callback 1); (ReadyEvent, Callback 2);
                   (TrackStartEvent, Callback 3)] event fresh) as (w & Hrun & Hdispatch).
  exists w. split; [exact Hrun|]. split; [exact Hdispatch|].
  apply Hnone. vm_compute in Hrun. injection Hrun as <-. reflexivity.
Defined.

(** An [event] frame of an unknown type changes nothing, alone or in the
    loop. *)
Lemma unknown_type_frame_dropped :
  let loads := Stub.json_loads Stub.frames_table in
  let frame := {| data := "unknown-type" |} in
  on_message Stub.type_of Stub.Event_from_payload loads frame connected
    = (inr tt, connected) /\
  _start_listening Stub.type_of Stub.Event_from_payload loads [frame] connected
    = _start_listening Stub.type_of Stub.Event_from_payload loads [] connected.
Proof.
  intros loads frame.
  destruct (unknown_frames_dropped Stub.type_of Stub.Event_from_payload loads frame
              (JObj [("op", JStr "event"); ("type", JStr "TrackPausedEvent")]))
    as (Hskip & Hloop).
  - reflexivity.
  - left. exists (JStr "TrackPausedEvent").
    split; [reflexivity|]. split; [reflexivity|].
    rewrite !not_elem_of_cons. repeat split; try discriminate. apply not_elem_of_nil.
  - split; [apply Hskip | apply (Hloop [] [])].
Defined.

(** A frame without [op] and an [event] frame without [type] end the loop;
    the frame behind them is not read. *)
Lemma missing_key_frames_raise :
  let loads := Stub.json_loads Stub.frames_table in
  let next := {| data := "unknown-type" |} in
  (_start_listening Stub.type_of Stub.Event_from_payload loads
      [{| data := "no-op" |}; next] connected).1
    = inl (KeyError "op") /\
  (_start_listening Stub.type_of Stub.Event_from_payload loads
      [{| data := "no-type" |}; next] connected).1
    = inl (KeyError "type").
Proof.
  intros loads next.
  destruct (missing_key_raises_KeyError Stub.type_of Stub.Event_from_payload loads
              {| data := "no-op" |} [("guildId", JStr "1")] eq_refl) as (Hop & _).
  destruct (missing_key_raises_KeyError Stub.type_of Stub.Event_from_payload loads
              {| data := "no-type" |} [("op", JStr "event"); ("guildId", JStr "1")] eq_refl)
    as (_ & Hty).
  destruct (Hop eq_refl) as (_ & Hop_loop).
  destruct (Hty eq_refl eq_refl) as (_ & Hty_loop).
  split.
  - exact (f_equal fst (Hop_loop [] [next] connected _ eq_refl)).
  - exact (f_equal fst (Hty_loop [] [next] connected _ eq_refl)).
Defined.

(** A frame that is an array ends the loop with a [TypeError]. *)
Lemma array_frame_raises_TypeError :
  let loads := Stub.json_loads Stub.frames_table in
  exists m,
    (_start_listening Stub.type_of Stub.Event_from_payload loads
       [{| data := "array" |}; {| data := "unknown-type" |}] connected).1
      = inl (TypeError m).
Proof.
  intros loads.
  destruct (non_dict_frame_raises_TypeError Stub.type_of Stub.Event_from_payload loads
              {| data := "array" |} (JArr [JStr "ready"]) eq_refl) as (m & _ & Hloop).
  - intros fields. discriminate.
  - exists m.
    exact (f_equal fst (Hloop [] [{| data := "unknown-type" |}] connected _ eq_refl)).
Defined.

(** [get("info")] on the connected client: the one request goes to
    [https://h:80/v3/info&trace=true], and none goes to the path [info]. *)
Lemma get_url_is_not_bare_path :
  let w : world (Event := Stub.Event) := connected in
  let run := get Stub.LavalinkError_from_payload (Stub.node 200 (JArr [])) "info" w in
  trace run.2 =
    [CreateTask StartListening;
     HttpGet
       {| headers :=
            {[ "Authorization" := "p"; "User-Id" := "1";
               "Client-Name" := "lava.py/0.0.0" ]} |}
       "https://h:80/v3/info&trace=true"] /\
  ~ (exists s, HttpGet s "https://h:80/v3/info" ∈ trace run.2).
Proof.
  intros w run.
  destruct (get_requests_path_with_trace Stub.LavalinkError_from_payload
              (Stub.node 200 (JArr [])) "h" (PortInt 80) "p" 1 None false "info"
              (fresh (Event := Stub.Event)))
    as (s & r & w1 & w' & Hconnect & Hs & _ & _ & _ & Hget & scheme & _ & Hscheme & Htrace).
  assert (Hw1 : w1 = w) by (injection Hconnect as <-; reflexivity).
  subst w1.
  assert (Hrun : run.2 = w') by (unfold run; rewrite Hget; reflexivity).
  assert (Hhttps : scheme = "https") by (apply Hscheme; reflexivity).
  assert (Hsession :
    s = {| headers :=
             {[ "Authorization" := "p"; "User-Id" := "1";
                "Client-Name" := "lava.py/0.0.0" ]} |})
    by (injection Hs as <-; reflexivity).
  rewrite Hrun, Htrace, Hhttps, Hsession.
  split; [reflexivity|].
  intros [s' Hin].
  apply elem_of_cons in Hin as [Heq|Hin]; [discriminate Heq|].
  apply elem_of_cons in Hin as [Heq|Hin]; [discriminate Heq|].
  apply elem_of_nil in Hin. exact Hin.
Defined.

(** A 404 with a JSON error body: [get] raises [ClientResponseError(404)],
    not the [LavalinkError] built from the body; the same body with status
    200 is returned. *)
Lemma get_404_raises_ClientResponseError :
  let w : world (Event := Stub.Event) := connected in
  let body := JObj [("status", JInt 404); ("error", JStr "Not Found")] in
  let run status :=
    get Stub.LavalinkError_from_payload (Stub.node status body) "sessions/abc/players" w in
  (run 404%Z).1 = inl (ClientResponseError 404) /\
  (run 404%Z).1 <> inl (LavalinkError body) /\
  (run 200%Z).1 = inr body.
Proof.
  intros w body run.
  destruct (get_not_ok_raises_ClientResponseError
              Stub.LavalinkError_from_payload (Stub.node 404 body)
              "sessions/abc/players" w _ false "h" (PortInt 80)
              {| status := 404; res_json := inr body |} body (LavalinkError body)
              eq_refl eq_refl eq_refl eq_refl eq_refl eq_refl eq_refl) as (Hbad & _).
  destruct (get_not_ok_raises_ClientResponseError
              Stub.LavalinkError_from_payload (Stub.node 200 body)
              "sessions/abc/players" w _ false "h" (PortInt 80)
              {| status := 200; res_json := inr body |} body (LavalinkError body)
              eq_refl eq_refl eq_refl eq_refl eq_refl eq_refl eq_refl) as (_ & Hgood).
  split; [exact (Hbad eq_refl)|]. split; [|exact (Hgood eq_refl)].
  unfold run. rewrite (Hbad eq_refl). discriminate.
Defined.

(** A body of the shape [{"players": [{}, {}]}]: the loop of
    [get_players] runs over the keys of the object, so the model class is
    given the string [players]; a class that needs an object raises, and a
    class that takes anything yields one value, the key. *)
Lemma get_players_object_body :
  let w : world (Event := Stub.Event) := connected in
  let body := JObj [("players", JArr [JObj []; JObj []])] in
  (get_players Stub.Player_from_payload Stub.LavalinkError_from_payload
     (Stub.node 200 body) "abc" w).1
    = inl (TypeError "indices must be integers") /\
  (get_players Stub.Raw_from_payload Stub.LavalinkError_from_payload
     (Stub.node 200 body) "abc" w).1
    = inr [JStr "players"].
Proof. split; reflexivity. Qed.

(** An array of two player objects gives two players in the order sent; an
    array with an element that does not decode gives none; a 404 gives the
    exception of [get]. *)
Lemma get_players_two_players :
  let w : world (Event := Stub.Event) := connected in
  let p1 := [("guildId", JStr "1")] in
  let p2 := [("guildId", JStr "2")] in
  let run status body :=
    get_players Stub.Player_from_payload Stub.LavalinkError_from_payload
      (Stub.node status body) "abc" w in
  (run 200%Z (JArr [JObj p1; JObj p2])).1
    = inr [ {| Stub.player_fields := p1 |}; {| Stub.player_fields := p2 |} ] /\
  (exists e, (run 200%Z (JArr [JObj p1; JNull])).1 = inl e) /\
  (run 404%Z (JObj [])).1 = inl (ClientResponseError 404).
Proof.
  intros w p1 p2 run.
  pose (fetch := fun status body =>
          get Stub.LavalinkError_from_payload (Stub.node status body)
            "sessions/abc/players" w).
  assert (Hthm := fun status body =>
    get_players_decodes_array Stub.Player_from_payload Stub.LavalinkError_from_payload
      (Stub.node status body) "abc" w (fetch status body).2).
  unfold run. split; [|split].
  - destruct (Hthm 200%Z (JArr [JObj p1; JObj p2])) as (_ & Harr).
    destruct (Harr [JObj p1; JObj p2] eq_refl) as (Hall & _).
    rewrite (Hall [ {| Stub.player_fields := p1 |}; {| Stub.player_fields := p2 |} ]).
    + reflexivity.
    + repeat constructor.
  - destruct (Hthm 200%Z (JArr [JObj p1; JNull])) as (_ & Harr).
    destruct (Harr [JObj p1; JNull] eq_refl) as (_ & Hex).
    destruct Hex as [e He].
    + apply Exists_cons_tl, Exists_cons_hd. eexists. reflexivity.
    + exists e. rewrite He. reflexivity.
  - destruct (Hthm 404%Z (JObj [])) as (Hfail & _).
    rewrite (Hfail (ClientResponseError 404) eq_refl). reflexivity.
Defined.

(** [close] on a client that never connected raises and closes nothing; on
    the connected client it closes the session, then the WebSocket, and the
    session accessor still returns the session afterwards. *)
Lemma close_on_fresh_and_connected :
  let w : world (Event := Stub.Event) := connected in
  close (fresh (Event := Stub.Event)) = (inl not_connected, fresh) /\
  exists s ws,
    close w =
      (inr tt, {| self := self w; trace := trace w ++ [SessionClose s; WsClose ws] |}) /\
    session (close w).2 = (inr s, (close w).2).
Proof.
  intros w.
  destruct (close_closes_session_then_websocket (fresh (Event := Stub.Event)))
    as (Hnone & _ & _).
  destruct (close_closes_session_then_websocket w) as (_ & _ & Hboth).
  split; [exact (Hnone eq_refl)|].
  eexists _, _. split; [exact (Hboth _ _ eq_refl eq_refl)|].
  rewrite (Hboth _ _ eq_refl eq_refl). reflexivity.
Defined.

(** On a client that never connected, the loop, [get] and [get_players]
    raise at once. *)
Lemma methods_raise_on_fresh_client :
  let w : world (Event := Stub.Event) := fresh in
  _start_listening Stub.type_of Stub.Event_from_payload
      (Stub.json_loads Stub.known_frames) [{| data := "ready" |}] w
    = (inl not_connected, w) /\
  get Stub.LavalinkError_from_payload (Stub.node 200 (JArr [])) "info" w
    = (inl not_connected, w) /\
  get_players Stub.Player_from_payload Stub.LavalinkError_from_payload
      (Stub.node 200 (JArr [])) "abc" w
    = (inl not_connected, w).
Proof.
  intros w.
  destruct (methods_before_connect_raise Stub.type_of Stub.Event_from_payload
              Stub.Player_from_payload Stub.LavalinkError_from_payload
              (Stub.json_loads Stub.known_frames) (Stub.node 200 (JArr [])) w)
    as (Hloop & Hget & Hplayers).
  split; [exact (Hloop eq_refl _)|].
  split; [exact (Hget eq_refl _) | exact (Hplayers eq_refl _)].
Defined.

(** A [ready] frame that also carries [type: TrackStartEvent] goes to the
    two [ReadyEvent] listeners, in the order they registered, and a
    [TrackStartEvent] frame to the one listener of that class. *)
Lemma ready_and_track_start_frames_dispatch :
  let loads := Stub.json_loads Stub.known_frames in
  let ready := JObj [("op", JStr "ready"); ("type", JStr "TrackStartEvent")] in
  let start := JObj [("op", JStr "event"); ("type", JStr "TrackStartEvent")] in
  exists w,
    listen_all [(ReadyEvent, Callback 1); (TrackStartEvent, Callback 2);
                (ReadyEvent, Callback 3)] connected = (inr tt, w) /\
    trace (on_message Stub.type_of Stub.Event_from_payload loads {| data := "ready" |} w).2
      = trace w ++
        [CreateTask (Listener (Callback 1) {| Stub.cls := ReadyEvent; Stub.payload := ready |});
         CreateTask (Listener (Callback 3) {| Stub.cls := ReadyEvent; Stub.payload := ready |})] /\
    trace (on_message Stub.type_of Stub.Event_from_payload loads
             {| data := "track-start" |} w).2
      = trace w ++
        [CreateTask (Listener (Callback 2)
                       {| Stub.cls := TrackStartEvent; Stub.payload := start |})].
Proof.
  intros loads ready start. eexists. split; [reflexivity|].
  split.
  - rewrite (recognized_frame_dispatches_its_class Stub.type_of Stub.Event_from_payload
               loads ReadyEvent {| data := "ready" |} ready).
    + reflexivity.
    + reflexivity.
    + reflexivity.
    + intros t [=].
  - rewrite (recognized_frame_dispatches_its_class Stub.type_of Stub.Event_from_payload
               loads TrackStartEvent {| data := "track-start" |} start).
    + reflexivity.
    + reflexivity.
    + reflexivity.
    + intros t [= <-]. reflexivity.
Defined.

(** A text the decoder rejects ends the loop; the frame behind it is not
    read. *)
Lemma garbage_frame_ends_loop :
  let loads := Stub.json_loads Stub.known_frames in
  (_start_listening Stub.type_of Stub.Event_from_payload loads
     [{| data := "{op:" |}; {| data := "ready" |}] connected).1
    = inl JSONDecodeError.
Proof.
  intros loads.
  destruct (undecodable_frame_ends_loop Stub.type_of Stub.Event_from_payload loads
              {| data := "{op:" |} JSONDecodeError eq_refl) as (_ & Hloop).
  exact (f_equal fst (Hloop [] [{| data := "ready" |}] connected _ eq_refl)).
Defined.

(** A [stats] frame and then a [ready] frame: the loop over both is the
    [ready] frame handled after the [stats] frame; after a frame that
    raised, a further frame changes nothing. *)
Lemma two_frames_in_order :
  let loads := Stub.json_loads Stub.known_frames in
  let run := _start_listening Stub.type_of Stub.Event_from_payload loads in
  run [{| data := "stats" |}; {| data := "ready" |}] connected
    = on_message Stub.type_of Stub.Event_from_payload loads {| data := "ready" |}
        (run [{| data := "stats" |}] connected).2 /\
  run [{| data := "{op:" |}; {| data := "ready" |}] connected
    = run [{| data := "{op:" |}] connected.
Proof.
  intros loads run.
  destruct (frames_handled_in_arrival_order Stub.type_of Stub.Event_from_payload loads
              [{| data := "stats" |}] connected) as (Hnext & _).
  destruct (frames_handled_in_arrival_order Stub.type_of Stub.Event_from_payload loads
              [{| data := "{op:" |}] connected) as (_ & Hstop).
  split.
  - exact (Hnext {| data := "ready" |} _ eq_refl).
  - exact (Hstop [{| data := "ready" |}] JSONDecodeError _ eq_refl).
Defined.

(** Three registrations on a new client: the two classes listened to are
    keys of the registry, a class nobody listened to is not. *)
Lemma registry_after_three_registrations :
  exists w : world (Event := Stub.Event),
    listen_all [(ReadyEvent, Callback 1); (TrackStartEvent, Callback 2);
                (ReadyEvent, Callback 3)] fresh = (inr tt, w) /\
    is_Some (event_listeners (self w) !! ReadyEvent) /\
    is_Some (event_listeners (self w) !! TrackStartEvent) /\
    ~ is_Some (event_listeners (self w) !! StatsEvent).
Proof.
  destruct (registry_keys_are_listened_classes
              [(ReadyEvent, Callback 1); (TrackStartEvent, Callback 2);
               (ReadyEvent, Callback 3)] (fresh (Event := Stub.Event)))
    as (w & Hrun & _ & _ & _ & _ & _ & _ & Hkeys).
  exists w. split; [exact Hrun|].
  specialize (Hkeys eq_refl).
  split; [|split].
  - apply (Hkeys ReadyEvent). apply list_elem_of_here.
  - apply (Hkeys TrackStartEvent). apply list_elem_of_further, list_elem_of_here.
  - intros Hsome. apply (Hkeys StatsEvent) in Hsome.
    repeat (apply elem_of_cons in Hsome as [Heq|Hsome]; [discriminate Heq|]).
    apply elem_of_nil in Hsome. exact Hsome.
Defined.

(** A 302 answer with a body is returned like a 200; a 404 answer with the
    same body is not. *)
Lemma get_returns_302_body_not_404 :
  let w : world (Event := Stub.Event) := connected in
  let body := JObj [("version", JStr "3.7")] in
  (get Stub.LavalinkError_from_payload (Stub.node 302 body) "info" w).1 = inr body /\
  (get Stub.LavalinkError_from_payload (Stub.node 404 body) "info" w).1 <> inr body.
Proof.
  intros w body.
  pose proof (fun status =>
    get_returns_exactly_ok_bodies Stub.LavalinkError_from_payload (Stub.node status body)
      "info" w _ false "h" (PortInt 80) body eq_refl eq_refl eq_refl eq_refl) as Hiff.
  split.
  - apply (Hiff 302%Z). eexists. split; [reflexivity|]. split; [reflexivity|reflexivity].
  - intros Hbody. apply (Hiff 404%Z) in Hbody as (res & [= <-] & Hlt & _).
    discriminate Hlt.
Defined.

(** A node that is down gives the transport's exception; a 500 answer
    whose body is not JSON gives the decoding exception, not a status
    error. *)
Lemma get_fails_on_transport_then_body :
  let w : world (Event := Stub.Event) := connected in
  (get Stub.LavalinkError_from_payload Stub.node_down "info" w).1
    = inl ClientConnectionError /\
  (get Stub.LavalinkError_from_payload (Stub.node_not_json 500) "info" w).1
    = inl ContentTypeError.
Proof.
  intros w.
  destruct (get_failure_order Stub.LavalinkError_from_payload Stub.node_down
              "info" w _ false "h" (PortInt 80) eq_refl eq_refl eq_refl eq_refl)
    as (Hdown & _ & _).
  destruct (get_failure_order Stub.LavalinkError_from_payload (Stub.node_not_json 500)
              "info" w _ false "h" (PortInt 80) eq_refl eq_refl eq_refl eq_refl)
    as (_ & Hbody & _).
  split; [exact (Hdown _ eq_refl) | exact (Hbody _ _ eq_refl eq_refl)].
Defined.

(** An array whose second element is [null]: the exception is that of the
    second element, and the third, a string, is never looked at. *)
Lemma get_players_fails_at_second_element :
  let w : world (Event := Stub.Event) := connected in
  let p1 := [("guildId", JStr "1")] in
  (get_players Stub.Player_from_payload Stub.LavalinkError_from_payload
     (Stub.node 200 (JArr [JObj p1; JNull; JStr "x"])) "abc" w).1
    = inl (TypeError "indices must be integers").
Proof.
  intros w p1.
  refine (f_equal fst
    (get_players_raises_first_failure Stub.Player_from_payload
       Stub.LavalinkError_from_payload (Stub.node 200 (JArr [JObj p1; JNull; JStr "x"]))
       "abc" w _ [JObj p1] JNull [JStr "x"] [ {| Stub.player_fields := p1 |} ]
       (TypeError "indices must be integers")
       eq_refl _ eq_refl)).
  repeat constructor.
Defined.

(** Bodies that are not arrays of players: [[]] gives no players, [null]
    raises [TypeError], and an object with the keys [a] and [b] hands the
    strings [a] and [b] to the model class. *)
Lemma get_players_on_other_bodies :
  let w : world (Event := Stub.Event) := connected in
  let run body :=
    get_players Stub.Raw_from_payload Stub.LavalinkError_from_payload
      (Stub.node 200 body) "abc" w in
  (run (JArr [])).1 = inr [] /\
  (exists m, (run JNull).1 = inl (TypeError m)) /\
  (run (JObj [("a", JInt 1); ("b", JInt 2)])).1 = inr [JStr "a"; JStr "b"].
Proof.
  intros w run.
  pose proof (fun body =>
    get_players_body_shapes Stub.Raw_from_payload Stub.LavalinkError_from_payload
      (Stub.node 200 body) "abc" w
      (get Stub.LavalinkError_from_payload (Stub.node 200 body) "sessions/abc/players" w).2)
    as Hshapes.
  split; [|split].
  - destruct (Hshapes (JArr [])) as (Hempty & _ & _).
    exact (f_equal fst (Hempty eq_refl)).
  - destruct (Hshapes JNull) as (_ & Hscalar & _).
    destruct (Hscalar JNull eq_refl) as [m Hm]; try discriminate.
    exists m. exact (f_equal fst Hm).
  - destruct (Hshapes (JObj [("a", JInt 1); ("b", JInt 2)])) as (_ & _ & Hobject).
    refine (f_equal fst (Hobject _ [JStr "a"; JStr "b"] eq_refl _)).
    repeat constructor.
Defined.

(** [connect("h", 80, "p", 1, is_ssl=True)]: the socket is opened on
    [wss://h:80], and [get("info")] goes to [http://h:80]. *)
Lemma ssl_client_gets_over_plain_http :
  exists (w : world (Event := Stub.Event)) ws s,
    connect "h" (PortInt 80) "p" 1 None true fresh = (inr tt, w) /\
    _websocket (self w) = Some ws /\
    ws_url ws = "wss://h:80/v3/websocket" /\
    trace (get Stub.LavalinkError_from_payload (Stub.node 200 (JArr [])) "info" w).2
      = trace w ++ [HttpGet s "http://h:80/v3/info&trace=true"].
Proof.
  destruct (rest_scheme_opposes_websocket_scheme Stub.LavalinkError_from_payload
              (Stub.node 200 (JArr [])) "h" (PortInt 80) "p" 1 None true "info"
              (fresh (Event := Stub.Event)))
    as (w & ws & s & url & Hconnect & Hws & Htrace & Hssl & _).
  destruct (Hssl eq_refl) as (Hws_url & Hurl).
  exists w, ws, s. split; [exact Hconnect|]. split; [exact Hws|].
  split; [rewrite Hws_url; reflexivity|].
  rewrite Htrace, Hurl. reflexivity.
Defined.

(** [connect] with the empty string as resume key: a key was passed, and no
    [Resume-Key] header is sent. *)
Lemma connect_empty_resume_key_sends_no_header :
  let w : world (Event := Stub.Event) :=
    (connect "h" (PortInt 80) "p" 1 (Some "") false fresh).2 in
  exists s,
    _session (self w) = Some s /\
    headers s !! "Resume-Key" = None /\
    headers s =
      {[ "Authorization" := "p"; "User-Id" := "1"; "Client-Name" := "lava.py/0.0.0" ]}.
Proof. intros w. eexists. split; [reflexivity|]. split; reflexivity. Qed.

(** [connect] with the resume key [k]: the header [Resume-Key: k] is sent
    beside the fixed ones. *)
Lemma connect_sends_passed_resume_key :
  exists (w : world (Event := Stub.Event)) s ws,
    connect "h" (PortInt 80) "p" 1 (Some "k") true fresh = (inr tt, w) /\
    _session (self w) = Some s /\
    _websocket (self w) = Some ws /\
    headers s !! "Resume-Key" = Some "k" /\
    headers s !! "Authorization" = Some "p" /\
    headers s !! "User-Id" = Some "1".
Proof.
  destruct (connect_websocket_and_headers Stub.type_of Stub.Event_from_payload
              (Stub.json_loads Stub.known_frames)) as (Hany & _).
  destruct (Hany "h" (PortInt 80) "p" 1%Z (Some "k") true (fresh (Event := Stub.Event)))
    as (s & ws & w & Hconnect & Hs & Hws & _ & _ & Hauth & Huser & _ & _ & Hsent & _).
  exists w, s, ws. repeat apply conj; try assumption.
  apply Hsent; [reflexivity | discriminate].
Defined.
